(** * pow: a command-line exponent calculator (src/pow/pow.cpp)

    A shallow embedding of [Pow] (the evaluator) and of
    [getOperationResult] (the expression resolver), together with the
    part of [std::regex] (ECMAScript grammar, backtracking search) that
    the resolver's pattern needs, and the properties of both. *)

From Stdlib Require Import ZArith NArith List String Ascii Bool Lia.
From Stdlib Require Import Decimal DecimalString DecimalN DecimalZ DecimalPos DecimalFacts.
From Stdlib Require Import Zpow_facts.
Import ListNotations.

Local Open Scope string_scope.

(* ================================================================== *)
(** * Outcomes of a call *)

(** What a C++ call can do: return a value, leave through an exception,
    or run into undefined behaviour (here only the conversion of an
    out-of-range [double] to [long long]). *)

Inductive exception : Type :=
| make_exception (what : string)   (* the program's own errors *)
| ConversionError.                 (* raised by the string-to-number primitives *)

Inductive outcome (A : Type) : Type :=
| Returns (a : A)
| Throws (e : exception)
| Undefined.

Arguments Returns {A} a.
Arguments Throws {A} e.
Arguments Undefined {A}.

Definition bind {A B : Type} (x : outcome A) (f : A -> outcome B) : outcome B :=
  match x with
  | Returns a => f a
  | Throws e => Throws e
  | Undefined => Undefined
  end.

Notation "x <- e1 ;; e2" := (bind e1 (fun x => e2))
  (at level 61, e1 at next level, right associativity).

(* ================================================================== *)
(** * std::string *)

Module Str.

(** [size_t] positions returned by the [find] family: [None] is
    [std::string::npos], the largest [size_t]. *)
Definition size_type := option nat.
Definition npos : size_type := None.

(** [a < b] on [size_t], with [npos] above every index. *)
Definition lt (a b : size_type) : bool :=
  match a, b with
  | Some i, Some j => Nat.ltb i j
  | Some _, None => true
  | None, _ => false
  end.

(** Index of the first character satisfying [p]. *)
Fixpoint find_if (p : ascii -> bool) (s : string) : size_type :=
  match s with
  | EmptyString => npos
  | String a s' => if p a then Some 0 else option_map S (find_if p s')
  end.

(** [s.find(c)] *)
Definition find (c : ascii) (s : string) : size_type := find_if (Ascii.eqb c) s.

(** [s.find_first_of(set)] and [s.find_first_not_of(set)] *)
Fixpoint mem (a : ascii) (set : string) : bool :=
  match set with
  | EmptyString => false
  | String b set' => Ascii.eqb a b || mem a set'
  end.

Definition find_first_of (set s : string) : size_type := find_if (fun a => mem a set) s.
Definition find_first_not_of (set s : string) : size_type :=
  find_if (fun a => negb (mem a set)) s.

(** [s.size()] *)
Definition size (s : string) : size_type := Some (String.length s).

(** [s.empty()] *)
Definition empty (s : string) : bool :=
  match s with EmptyString => true | _ => false end.

(** Every character of [s] satisfies [p]. *)
Fixpoint all (p : ascii -> bool) (s : string) : bool :=
  match s with
  | EmptyString => true
  | String a s' => p a && all p s'
  end.

(** The part of [s] in front of its suffix [s'] (the characters between
    two iterators into the same string). *)
Definition between (s s' : string) : string :=
  substring 0 (String.length s - String.length s') s.

End Str.

(* ================================================================== *)
(** * std::regex, ECMAScript grammar *)

Module Regex.

(** The constructs the program's pattern uses.  Repetition is only ever
    applied to a single-character atom ([[\d\^]+], [\s*]), which is what
    [Star] offers; [x+] is [x] followed by [x*]. *)
Inductive regex : Type :=
| Class (p : ascii -> bool)          (* one character: literal, escape or bracket *)
| Seq (r1 r2 : regex)                (* concatenation *)
| Group (i : nat) (r : regex)        (* capturing group number [i] *)
| Opt (greedy : bool) (r : regex)    (* [r{0,1}] and [r{0,1}?] *)
| Star (p : ascii -> bool).          (* greedy [x*] on a one-character atom *)

Definition Char (c : ascii) : regex := Class (Ascii.eqb c).
Definition Plus (p : ascii -> bool) : regex := Seq (Class p) (Star p).

(** Sub-matches that took part in the match, most recent first. *)
Definition captures := list (nat * string).

Fixpoint sub_match (c : captures) (i : nat) : option string :=
  match c with
  | [] => None
  | (j, w) :: c' => if Nat.eqb i j then Some w else sub_match c' i
  end.

(** Greedy repetition: one more character first, the continuation
    afterwards. *)
Fixpoint star (p : ascii -> bool) (s : string) (k : string -> option captures)
  : option captures :=
  match s with
  | String a s' =>
      if p a then
        match star p s' k with
        | Some x => Some x
        | None => k s
        end
      else k s
  | EmptyString => k s
  end.

(** The backtracking matcher of ECMA-262: a pattern is run on the rest of
    the input with the captures so far and a continuation; the first
    alternative whose continuation succeeds wins. *)
Fixpoint run (r : regex) (s : string) (c : captures)
  (k : string -> captures -> option captures) : option captures :=
  match r with
  | Class p =>
      match s with
      | String a s' => if p a then k s' c else None
      | EmptyString => None
      end
  | Seq r1 r2 => run r1 s c (fun s1 c1 => run r2 s1 c1 k)
  | Group i r1 => run r1 s c (fun s1 c1 => k s1 ((i, Str.between s s1) :: c1))
  | Opt true r1 =>
      match run r1 s c k with
      | Some x => Some x
      | None => k s c
      end
  | Opt false r1 =>
      match k s c with
      | Some x => Some x
      | None => run r1 s c k
      end
  | Star p => star p s (fun s1 => k s1 c)
  end.

(** A match of the whole pattern that starts at the front of [s]. *)
Definition match_here (r : regex) (s : string) : option captures :=
  run r s [] (fun _ c => Some c).

(** [std::regex_match]: a match of the whole of [s]. *)
Definition regex_match (r : regex) (s : string) : option captures :=
  run r s [] (fun s' c => if Str.empty s' then Some c else None).

(** [std::regex_search]: the leftmost start position with a match. *)
Fixpoint regex_search (r : regex) (s : string) : option captures :=
  match match_here r s with
  | Some c => Some c
  | None =>
      match s with
      | String _ s' => regex_search r s'
      | EmptyString => None
      end
  end.

(** The declarative reading of a pattern: [Matches r w c c'] when [r]
    matches exactly the text [w], turning the captures [c] into [c']
    (no priorities between alternatives). *)
Inductive Matches : regex -> string -> captures -> captures -> Prop :=
| M_Class p a c :
    p a = true -> Matches (Class p) (String a "") c c
| M_Seq r1 r2 w1 w2 c c1 c2 :
    Matches r1 w1 c c1 -> Matches r2 w2 c1 c2 ->
    Matches (Seq r1 r2) (w1 ++ w2) c c2
| M_Group i r w c c1 :
    Matches r w c c1 -> Matches (Group i r) w c ((i, w) :: c1)
| M_Opt_skip g r c :
    Matches (Opt g r) "" c c
| M_Opt_take g r w c c1 :
    Matches r w c c1 -> Matches (Opt g r) w c c1
| M_Star p w c :
    Str.all p w = true -> Matches (Star p) w c c.

(** Some part of [s] matches [r]. *)
Definition matches_within (r : regex) (s : string) : Prop :=
  exists pre w post c, s = pre ++ w ++ post /\ Matches r w [] c.

(** Character classes. *)
Definition is_digit (a : ascii) : bool :=
  let n := nat_of_ascii a in Nat.leb 48 n && Nat.leb n 57.

Definition is_space (a : ascii) : bool :=
  let n := nat_of_ascii a in Nat.eqb n 32 || (Nat.leb 9 n && Nat.leb n 13).

End Regex.

Import Regex.

(** [[\d\^]] *)
Definition operand_char (a : ascii) : bool := is_digit a || Ascii.eqb a "^".

(** [rgxParseOperation]:
    [(?:\({0,1}([\d\^]+)\){0,1}?)\s*\^\s*(?:\({0,1}([\d\^]+)\){0,1}?)] *)
Definition operand_pattern (i : nat) : regex :=
  Seq (Opt true (Char "("))
      (Seq (Group i (Plus operand_char))
           (Opt false (Char ")"))).

Definition rgxParseOperation : regex :=
  Seq (operand_pattern 1)
      (Seq (Star is_space)
           (Seq (Char "^")
                (Seq (Star is_space)
                     (operand_pattern 2)))).

(* ================================================================== *)
(** * Numbers *)

Local Open Scope Z_scope.

Definition LLONG_MIN : Z := - 2 ^ 63.
Definition LLONG_MAX : Z := 2 ^ 63 - 1.
Definition ULLONG_MAX : Z := 2 ^ 64 - 1.

(** Conversion between the two 64-bit integer types keeps the value
    modulo [2^64]. *)
Definition to_long_long (x : Z) : Z :=
  let r := x mod 2 ^ 64 in if r <? 2 ^ 63 then r else r - 2 ^ 64.

Definition to_unsigned_long_long (x : Z) : Z := x mod 2 ^ 64.

(** ** IEEE 754 binary64 *)

Module Double.

(** A finite value is [m * 2^e]; the sign of zero is not tracked. *)
Inductive double : Type :=
| Finite (m e : Z)
| Infinity (negative : bool)
| NaN.

(** Quotient [num / den] rounded to the nearest integer, ties to even
    ([0 <= num], [0 < den]). *)
Definition round_half_even (num den : Z) : Z :=
  let q := num / den in
  match (2 * (num mod den)) ?= den with
  | Lt => q
  | Gt => q + 1
  | Eq => if Z.even q then q else q + 1
  end.

(** The exponent [k] with [2^k <= n / d < 2^(k+1)] ([0 < n], [0 < d]). *)
Definition exponent_of (n d : Z) : Z :=
  let k := Z.log2 n - Z.log2 d in
  if d * 2 ^ Z.max 0 k <=? n * 2 ^ Z.max 0 (- k) then k else k - 1.

(** The binary64 value nearest to the rational [n / d] ([0 < d]):
    53 significant bits, least exponent [-1074], overflow to infinity. *)
Definition of_ratio (n d : Z) : double :=
  if n =? 0 then Finite 0 0
  else
    let a := Z.abs n in
    let e := Z.max (exponent_of a d - 52) (- 1074) in
    let m := round_half_even (a * 2 ^ Z.max 0 (- e)) (d * 2 ^ Z.max 0 e) in
    if 2 ^ 1024 <=? m * 2 ^ Z.max 0 e then Infinity (n <? 0)
    else Finite (Z.sgn n * m) e.

(** Integer to [double]. *)
Definition of_integer (x : Z) : double := of_ratio x 1.

(** The value of a finite [double] with its fraction discarded. *)
Definition truncate (m e : Z) : Z :=
  if 0 <=? e then m * 2 ^ e else Z.quot m (2 ^ (- e)).

(** [double] to [long long]: the fraction is discarded; the behaviour is
    undefined when the result does not fit. *)
Definition to_long_long (x : double) : outcome Z :=
  match x with
  | Finite m e =>
      let t := truncate m e in
      if (LLONG_MIN <=? t) && (t <=? LLONG_MAX) then Returns t else Undefined
  | _ => Undefined
  end.

(** [std::pow(double, double)] at arguments whose values are integers
    (the program only calls it on converted integers): the binary64
    value nearest to the exact power, [pow(x, 0) = 1], and
    [pow(0, y) = +inf] for [y < 0]. *)
Definition pow (x y : double) : double :=
  match x, y with
  | Finite mx ex, Finite my ey =>
      let vx := truncate mx ex in
      let vy := truncate my ey in
      if vy =? 0 then of_integer 1
      else if 0 <? vy then of_integer (vx ^ vy)
      else if vx =? 0 then Infinity false
      else
        let d := vx ^ (- vy) in
        if 0 <? d then of_ratio 1 d else of_ratio (- 1) (- d)
  | _, _ => NaN
  end.

End Double.

(** [std::pow(long long, long long)]: the arguments are promoted to
    [double]; the [double] result is converted to the caller's return
    type [long long]. *)
Definition pow_long_long (x y : Z) : outcome Z :=
  Double.to_long_long (Double.pow (Double.of_integer x) (Double.of_integer y)).

(** ** Strings and numbers *)

(** Modelled from the spec: [str::stoull] of the string library, absent
    from the sources: parse the token as an unsigned integer, fail with a
    ConversionError on malformed input (non-digit characters, the empty
    string) or when the value does not fit the type. *)
Definition stoull (s : string) : outcome Z :=
  match NilZero.uint_of_string s with
  | Some d =>
      let n := Z.of_uint d in
      if n <=? ULLONG_MAX then Returns n else Throws ConversionError
  | None => Throws ConversionError
  end.

(** Modelled from the spec: [str::stoll] of the string library, absent
    from the sources: parse the token, an optional leading [-] and
    digits, as a signed integer; ConversionError as for [stoull]. *)
Definition stoll (s : string) : outcome Z :=
  match NilZero.int_of_string s with
  | Some d =>
      let n := Z.of_int d in
      if (LLONG_MIN <=? n) && (n <=? LLONG_MAX) then Returns n
      else Throws ConversionError
  | None => Throws ConversionError
  end.

(** Modelled from the spec: [str::stringify] of the string library,
    absent from the sources, at an integer: its canonical decimal text. *)
Definition stringify (z : Z) : string := NilZero.string_of_int (Z.to_int z).

(** Modelled from the spec: the extended-precision floating-point
    primitives, absent from the sources ([str::stold], [std::pow] on
    [long double], [str::stringify] at a [long double]).  Nothing is
    assumed about them. *)
Class LongDouble : Type := {
  long_double : Type;
  stold : string -> outcome long_double;
  powl : long_double -> long_double -> long_double;
  stringify_long_double : long_double -> string
}.

(* ================================================================== *)
(** * The evaluator: [struct Pow] *)

Local Open Scope string_scope.

Record Pow : Type := { number : string; exponent : string }.

(** [number.find('.') < number.size() || exponent.find('.') < exponent.size()] *)
Definition hasFloatingPoint (p : Pow) : bool :=
  Str.lt (Str.find "." (number p)) (Str.size (number p))
  || Str.lt (Str.find "." (exponent p)) (Str.size (exponent p)).

(** [find_first_of("-") < find_first_not_of("-")] on either operand. *)
Definition hasNegative (p : Pow) : bool :=
  let search_str := "-" in
  Str.lt (Str.find_first_of search_str (number p))
         (Str.find_first_not_of search_str (number p))
  || Str.lt (Str.find_first_of search_str (exponent p))
            (Str.find_first_not_of search_str (exponent p)).

(** [T getResult(converter)]: [std::pow(converter(number), converter(exponent))],
    for the power function [pow_T] that overload resolution picks at [T]. *)
Definition getResult_with {T : Type} (pow_T : T -> T -> outcome T)
  (converter : string -> outcome T) (p : Pow) : outcome T :=
  x <- converter (number p) ;;
  y <- converter (exponent p) ;;
  pow_T x y.

(** [getResult<long long>()]: [getResult<long long>(str::stoll)]. *)
Definition getResult_signed (p : Pow) : outcome Z :=
  getResult_with pow_long_long stoll p.

(** [getResult<unsigned long long>()]: [getResult<long long>(str::stoull)],
    the converter's value brought to [long long], the result cast back. *)
Definition getResult_unsigned (p : Pow) : outcome Z :=
  r <- getResult_with pow_long_long
         (fun s => x <- stoull s ;; Returns (to_long_long x)) p ;;
  Returns (to_unsigned_long_long r).

Section Evaluator.

Context {LD : LongDouble}.

(** [getResult<long double>()]: [getResult<long double>(str::stold)]. *)
Definition getResult_floating (p : Pow) : outcome long_double :=
  getResult_with (fun x y => Returns (powl x y)) stold p.

Definition getResultString (p : Pow) : outcome string :=
  if hasFloatingPoint p then
    r <- getResult_floating p ;; Returns (stringify_long_double r)
  else if hasNegative p then
    r <- getResult_signed p ;; Returns (stringify r)
  else
    r <- getResult_unsigned p ;; Returns (stringify r).

End Evaluator.

(* ================================================================== *)
(** * The resolver: [getOperationResult] *)

Inductive COLOR : Type := NUMBER | EXPONENT | RESULT | CARET | EQUALS | BRACKET.

(** Modelled from the spec: [term::palette] of the terminal library,
    absent from the sources: a key gives its escape sequence while
    styling is enabled and nothing once it is disabled; likewise the
    reset sequence. *)
Record palette : Type := {
  active : bool;
  sequence : COLOR -> string;
  reset : string
}.

Definition set_color (p : palette) (key : COLOR) : string :=
  if active p then sequence p key else "".

Definition reset_color (p : palette) : string :=
  if active p then reset p else "".

(** The [Global] object. *)
Record Global_t : Type := { quiet : bool; colors : palette }.

(** A call that may also run out of recursion depth ([None]). *)
Definition bind_depth {A B : Type} (x : option (outcome A))
  (f : A -> option (outcome B)) : option (outcome B) :=
  match x with
  | None => None
  | Some (Returns a) => f a
  | Some (Throws e) => Some (Throws e)
  | Some Undefined => Some Undefined
  end.

Notation "x <-- e1 ;; e2" := (bind_depth e1 (fun x => e2))
  (at level 61, e1 at next level, right associativity).

(** "resolve sub-expressions, if necessary": the operand's equation text
    (empty when it is not nested) and its value text. *)
Definition sub_expression (self : string -> option (outcome (string * string)))
  (operand : string) : option (outcome (string * string)) :=
  match Str.find "^" operand with
  | Some _ => self operand
  | None => Some (Returns ("", operand))
  end.

(** The text written to [ss] for one operand. *)
Definition render_operand (G : Global_t) (key : COLOR) (eq value : string) : string :=
  if Str.empty eq then
    set_color (colors G) key ++ value ++ reset_color (colors G)
  else
    (set_color (colors G) BRACKET ++ "(" ++ reset_color (colors G))
    ++ (set_color (colors G) key ++ eq ++ reset_color (colors G))
    ++ (set_color (colors G) BRACKET ++ ")" ++ reset_color (colors G)).

(** The contents of [ss] at the [return]. *)
Definition render (G : Global_t) (numEq num expEq exp result : string) : string :=
  (if quiet G then ""
   else
     render_operand G NUMBER numEq num
     ++ (" " ++ set_color (colors G) CARET ++ "^" ++ reset_color (colors G) ++ " ")
     ++ render_operand G EXPONENT expEq exp
     ++ (" " ++ set_color (colors G) EQUALS ++ "=" ++ reset_color (colors G) ++ " "))
  ++ (set_color (colors G) RESULT ++ result ++ reset_color (colors G)).

Definition quoted (reason rawInput : string) : exception :=
  make_exception (reason ++ rawInput ++ "'").

Definition unrecognized (rawInput : string) : exception :=
  quoted "Unrecognized operation syntax '" rawInput.

Section Resolver.

Context {LD : LongDouble}.

(** The body of [getOperationResult]; [self] stands for its recursive
    calls. *)
Definition getOperationResult_body
  (self : string -> option (outcome (string * string)))
  (G : Global_t) (rawInput : string) : option (outcome (string * string)) :=
  match regex_search rgxParseOperation rawInput with
  | None => Some (Throws (unrecognized rawInput))
  | Some matches =>
      match sub_match matches 1, sub_match matches 2 with
      | None, None =>
          Some (Throws (quoted "Missing operand and exponent in '" rawInput))
      | None, Some _ =>
          Some (Throws (quoted "Missing operand in '" rawInput))
      | Some _, None =>
          Some (Throws (quoted "Missing exponent in '" rawInput))
      | Some num, Some exp =>
          n <-- sub_expression self num ;;
          e <-- sub_expression self exp ;;
          result <-- Some (getResultString {| number := snd n; exponent := snd e |}) ;;
          Some (Returns (render G (fst n) (snd n) (fst e) (snd e) result, result))
      end
  end.

(** [getOperationResult] with a bound on the depth of its recursion. *)
Fixpoint getOperationResult_depth (depth : nat) (G : Global_t) (rawInput : string)
  : option (outcome (string * string)) :=
  match depth with
  | O => None
  | S depth' => getOperationResult_body (getOperationResult_depth depth' G) G rawInput
  end.

(** [getOperationResult]: every recursive call is on a proper part of
    its input, so the length of the input bounds the depth. *)
Definition getOperationResult (G : Global_t) (rawInput : string)
  : option (outcome (string * string)) :=
  getOperationResult_depth (S (String.length rawInput)) G rawInput.

End Resolver.

(** A platform on which no text converts to [long double]; it serves
    where a concrete platform has to be named. *)
Definition no_long_double : LongDouble :=
  {| long_double := unit;
     stold := fun _ => Throws ConversionError;
     powl := fun _ _ => tt;
     stringify_long_double := fun _ => "" |}.

(** The palette with styling disabled ([--no-color]). *)
Definition no_color : palette :=
  {| active := false; sequence := fun _ => ""; reset := "" |}.

Definition plain : Global_t := {| quiet := false; colors := no_color |}.
Definition plain_quiet : Global_t := {| quiet := true; colors := no_color |}.

(* ================================================================== *)
(** * [Help] and [main] *)

Definition newline : string := String (ascii_of_nat 10) "".

(** [operator<<] of [Help]; the version text [pow_VERSION_EXTENDED] comes
    from a header that is not among the sources and is a parameter. *)
Definition Help (pow_VERSION_EXTENDED programName : string) : string :=
  "pow  v" ++ pow_VERSION_EXTENDED ++ newline
  ++ "  Commandline exponent calculator." ++ newline
  ++ newline
  ++ "USAGE:" ++ newline
  ++ "  " ++ programName ++ " [OPTIONS] <N>^<EXP>" ++ newline
  ++ newline
  ++ "  All parameters that are not options are concatenated together before they are parsed." ++ newline
  ++ "  Operations are delimited using commas ','." ++ newline
  ++ newline
  ++ "OPTIONS:" ++ newline
  ++ "  -h, --help             Shows this help display, then exits." ++ newline
  ++ "  -v, --version          Shows the current version number, then exits." ++ newline
  ++ "  -q, --quiet            Prevents non-essential console output & formatting." ++ newline
  ++ "  -n, --no-color         Disables the use of ANSI color escape sequences in console output." ++ newline.

(** Modelled from the spec: what the command-line parser of the argument
    library, absent from the sources, hands to [main]: the four options as
    booleans, and the positional parameters joined with spaces and split
    at the commas. *)
Record arguments : Type := {
  quiet_option : bool;
  no_color_option : bool;
  help_option : bool;
  version_option : bool;
  operations : list string
}.

(** How a run ends: what was written to [std::cout] (one entry for each
    [std::endl]), the exception reported on [std::cerr] if any, and the
    value returned by [main]. *)
Definition finished : Type := (list string * option exception * Z)%type.

(** [Global.colors.setActive] *)
Definition setActive (p : palette) (b : bool) : palette :=
  {| active := b; sequence := sequence p; reset := reset p |}.

Section Main.

Context {LD : LongDouble}.

(** The loop over the operations, with the handler around it: each
    equation text is printed as soon as it is resolved; the first
    exception ends the run with the value 1. *)
Fixpoint resolve_operations (G : Global_t) (operations : list string)
  (printed : list string) : option (outcome finished) :=
  match operations with
  | [] => Some (Returns (printed, None, 0%Z))
  | arg :: rest =>
      match getOperationResult G arg with
      | None => None
      | Some (Returns (eq, _)) => resolve_operations G rest (printed ++ [eq])
      | Some (Throws ex) => Some (Returns (printed, Some ex, 1%Z))
      | Some Undefined => Some Undefined
      end
  end.

(** [main], from the options on; [colors] is the palette [Global] starts
    with. *)
Definition main (pow_VERSION_EXTENDED programName : string) (colors : palette)
  (args : arguments) : option (outcome finished) :=
  let G := {| quiet := quiet_option args;
              colors := setActive colors (negb (no_color_option args)) |} in
  if help_option args then
    Some (Returns ([Help pow_VERSION_EXTENDED programName], None, 0%Z))
  else if version_option args then
    Some (Returns ([(if quiet G then "" else "pow  v") ++ pow_VERSION_EXTENDED],
                   None, 0%Z))
  else resolve_operations G (operations args) [].

(** [arg] resolves, with the equation text [eq]. *)
Definition resolves_to (G : Global_t) (arg eq : string) : Prop :=
  exists result, getOperationResult G arg = Some (Returns (eq, result)).

End Main.

(* ================================================================== *)
(** * Notions used in the statements *)

(** The errors a call can let through besides the one about its own
    input: a conversion error, or the syntax error of a nested call,
    whose input is shorter than [n] characters. *)
Definition thrown_below (n : nat) (e : exception) : Prop :=
  e = ConversionError
  \/ exists t, e = unrecognized t /\ (String.length t < n)%nat.

(** What a finished call can have done on the input [s]. *)
Definition resolved (s : string) (o : outcome (string * string)) : Prop :=
  match o with
  | Returns (eq, res) => Str.all is_digit res = true /\ res <> ""
  | Throws e =>
      (regex_search rgxParseOperation s = None /\ e = unrecognized s)
      \/ (regex_search rgxParseOperation s <> None /\ thrown_below (String.length s) e)
  | Undefined => True
  end.

(** Text that is at its end or goes on with a digit. *)
Definition digit_or_end (t : string) : Prop :=
  match t with
  | "" => True
  | String a _ => is_digit a = true
  end.

(** What follows the number group in [rgxParseOperation]. *)
Definition after_number : regex :=
  Seq (Star is_space) (Seq (Char "^") (Seq (Star is_space) (operand_pattern 2))).

(** A character with which no match can start. *)
Definition junk_char (a : ascii) : bool := negb (operand_char a || Ascii.eqb "(" a).

(** Text on which a greedy repetition of [p] takes nothing. *)
Definition stops (p : ascii -> bool) (s : string) : Prop :=
  match s with
  | "" => True
  | String a _ => p a = false
  end.

Definition opening (s : string) : Prop := s = "" \/ s = "(".
Definition closing (s : string) : Prop := s = "" \/ s = ")".

(** The result text of a call, or how it failed: what does not depend on
    the presentation. *)
Definition result_of (o : option (outcome (string * string))) : option (outcome string) :=
  option_map (fun x => r <- x ;; Returns (snd r)) o.

(** A character that cannot follow the number group: neither white
    space, nor the caret, nor ")". *)
Definition blocker_char (a : ascii) : bool :=
  negb (is_space a || Ascii.eqb "^" a || Ascii.eqb ")" a).

(** Some part of [s] is the character [c]. *)
Definition contains (c : ascii) (s : string) : Prop :=
  exists pre post, s = pre ++ String c post.


(* ================================================================== *)
(** * Facts about strings *)

Lemma append_nil_r (s : string) : s ++ "" = s.
Proof. induction s as [|a s IH]; simpl; [reflexivity | now rewrite IH]. Qed.

Lemma append_assoc (s t u : string) : (s ++ t) ++ u = s ++ t ++ u.
Proof. induction s as [|a s IH]; simpl; [reflexivity | now rewrite IH]. Qed.

Lemma length_append (s t : string) :
  String.length (s ++ t) = (String.length s + String.length t)%nat.
Proof. induction s as [|a s IH]; simpl; [reflexivity | now rewrite IH]. Qed.

Lemma substring_prefix (w s : string) :
  substring 0 (String.length w) (w ++ s) = w.
Proof.
  induction w as [|a w IH]; simpl.
  - destruct s; reflexivity.
  - now rewrite IH.
Qed.

Lemma between_app (w s : string) : Str.between (w ++ s) s = w.
Proof.
  unfold Str.between. rewrite length_append.
  replace (String.length w + String.length s - String.length s)%nat
    with (String.length w) by lia.
  apply substring_prefix.
Qed.

Lemma all_app (p : ascii -> bool) (s t : string) :
  Str.all p (s ++ t) = Str.all p s && Str.all p t.
Proof.
  induction s as [|a s IH]; simpl; [reflexivity|].
  rewrite IH. now rewrite andb_assoc.
Qed.

Lemma find_if_none (p : ascii -> bool) (s : string) :
  Str.find_if p s = None <-> Str.all (fun a => negb (p a)) s = true.
Proof.
  induction s as [|a s IH]; simpl; [tauto|].
  destruct (p a); simpl.
  - split; discriminate.
  - rewrite <- IH. destruct (Str.find_if p s); simpl; split; congruence.
Qed.

(* ================================================================== *)
(** * The matcher against the declarative reading *)

Lemma star_sound p s k x :
  star p s k = Some x ->
  exists w s', s = w ++ s' /\ Str.all p w = true /\ k s' = Some x.
Proof.
  revert x. induction s as [|a s IH]; simpl; intros x H.
  - exists "", "". auto.
  - destruct (p a) eqn:Hp.
    + destruct (star p s k) as [y|] eqn:Hs.
      * destruct (IH y eq_refl) as (w & s' & -> & Hw & Hk).
        exists (String a w), s'. simpl. rewrite Hp, Hw.
        repeat split; congruence.
      * exists "", (String a s). auto.
    + exists "", (String a s). auto.
Qed.

Lemma star_complete p w s' k :
  Str.all p w = true -> k s' <> None -> star p (w ++ s') k <> None.
Proof.
  intros Hw Hk. induction w as [|a w IH]; simpl in *.
  - destruct s' as [|b s']; simpl; [exact Hk|].
    destruct (p b); [|exact Hk].
    destruct (star p s' k); [discriminate | exact Hk].
  - apply andb_true_iff in Hw as [Ha Hw]. rewrite Ha.
    specialize (IH Hw). destruct (star p (w ++ s') k); [discriminate | tauto].
Qed.

Lemma run_sound r : forall s c k x,
  run r s c k = Some x ->
  exists w s' c', s = w ++ s' /\ Matches r w c c' /\ k s' c' = Some x.
Proof.
  induction r as [p | r1 IH1 r2 IH2 | i r IH | g r IH | p]; simpl; intros s c k x H.
  - destruct s as [|a s]; [discriminate|].
    destruct (p a) eqn:Hp; [|discriminate].
    exists (String a ""), s, c. repeat split; auto using M_Class.
  - apply IH1 in H as (w1 & s1 & c1 & -> & M1 & H).
    apply IH2 in H as (w2 & s2 & c2 & -> & M2 & H).
    exists (w1 ++ w2), s2, c2. rewrite append_assoc.
    repeat split; eauto using M_Seq.
  - apply IH in H as (w & s' & c' & -> & M & H).
    rewrite between_app in H.
    exists w, s', ((i, w) :: c'). repeat split; auto using M_Group.
  - assert (Hskip : k s c = Some x ->
              exists w s' c', s = w ++ s' /\ Matches (Opt g r) w c c' /\ k s' c' = Some x).
    { intros Hk. exists "", s, c. repeat split; auto using M_Opt_skip. }
    assert (Htake : run r s c k = Some x ->
              exists w s' c', s = w ++ s' /\ Matches (Opt g r) w c c' /\ k s' c' = Some x).
    { intros Hr. apply IH in Hr as (w & s' & c' & -> & M & Hr).
      exists w, s', c'. repeat split; auto using M_Opt_take. }
    destruct g.
    + destruct (run r s c k) as [y|] eqn:Hr; [injection H as ->|]; auto.
    + destruct (k s c) as [y|] eqn:Hk; [injection H as ->|]; auto.
  - apply star_sound in H as (w & s' & -> & Hw & H).
    exists w, s', c. repeat split; auto using M_Star.
Qed.

Lemma run_complete r : forall w c c' s' k,
  Matches r w c c' -> k s' c' <> None -> run r (w ++ s') c k <> None.
Proof.
  intros w c c' s' k M. revert s' k.
  induction M as [p a c Hp | r1 r2 w1 w2 c c1 c2 M1 IH1 M2 IH2 | i r w c c1 M IH
                 | g r c | g r w c c1 M IH | p w c Hw]; intros s' k Hk; simpl.
  - now rewrite Hp.
  - rewrite append_assoc. apply IH1. now apply IH2.
  - apply IH. now rewrite between_app.
  - destruct g.
    + destruct (run r s' c k); [discriminate | exact Hk].
    + destruct (k s' c); [discriminate | tauto].
  - specialize (IH s' k Hk). destruct g.
    + destruct (run r (w ++ s') c k); [discriminate | tauto].
    + destruct (k (w ++ s') c); [discriminate | exact IH].
  - now apply star_complete.
Qed.

Lemma regex_match_complete r w c :
  Matches r w [] c -> regex_match r w <> None.
Proof.
  intros M. unfold regex_match. rewrite <- (append_nil_r w).
  eapply run_complete; [exact M | discriminate].
Qed.

Lemma match_here_sound r s c :
  match_here r s = Some c -> exists w post, s = w ++ post /\ Matches r w [] c.
Proof.
  unfold match_here. intros H.
  apply run_sound in H as (w & s' & c' & -> & M & [= ->]). eauto.
Qed.

Lemma regex_search_sound r s c :
  regex_search r s = Some c ->
  exists pre w post, s = pre ++ w ++ post /\ Matches r w [] c.
Proof.
  induction s as [|a s IH]; simpl.
  - destruct (match_here r "") as [y|] eqn:H; [|discriminate].
    intros [= ->]. apply match_here_sound in H as (w & post & E & M).
    exists "", w, post. auto.
  - destruct (match_here r (String a s)) as [y|] eqn:H.
    + intros [= ->]. apply match_here_sound in H as (w & post & E & M).
      exists "", w, post. auto.
    + intros H'. apply IH in H' as (pre & w & post & -> & M).
      exists (String a pre), w, post. auto.
Qed.

Lemma regex_search_complete r pre w post c :
  Matches r w [] c -> regex_search r (pre ++ w ++ post) <> None.
Proof.
  intros M.
  assert (Hm : match_here r (w ++ post) <> None).
  { unfold match_here. eapply run_complete; [exact M | discriminate]. }
  induction pre as [|a pre IH].
  - change ("" ++ w ++ post) with (w ++ post).
    destruct (w ++ post) as [|b t]; cbn [regex_search];
      destruct (match_here r _); try discriminate; tauto.
  - change (String a pre ++ w ++ post) with (String a (pre ++ w ++ post)).
    cbn [regex_search].
    destruct (match_here r (String a _)); [discriminate | exact IH].
Qed.

Lemma regex_search_none r s :
  regex_search r s = None <-> ~ matches_within r s.
Proof.
  split.
  - intros H (pre & w & post & c & -> & M).
    now apply (regex_search_complete r pre w post c M).
  - intros H. destruct (regex_search r s) as [c|] eqn:E; [|reflexivity].
    exfalso. apply H. apply regex_search_sound in E as (pre & w & post & -> & M).
    exists pre, w, post, c. auto.
Qed.

(* ================================================================== *)
(** * What a match of [rgxParseOperation] looks like *)

Ltac inv H := inversion H; subst; clear H.

Ltac inv_matches :=
  repeat match goal with
    | H : Matches (Seq _ _) _ _ _ |- _ => inv H
    | H : Matches (Group _ _) _ _ _ |- _ => inv H
    | H : Matches (Class _) _ _ _ |- _ => inv H
    | H : Matches (Star _) _ _ _ |- _ => inv H
    | H : Matches (Opt _ _) _ _ _ |- _ => inv H
    end.

Lemma Matches_operand_pattern i w c c' :
  Matches (operand_pattern i) w c c' ->
  exists g, c' = (i, g) :: c /\ g <> "" /\ Str.all operand_char g = true
            /\ (String.length g <= String.length w)%nat.
Proof.
  unfold operand_pattern, Plus, Char. intros H. inv_matches.
  all: match goal with
       | Ha : operand_char ?a = true, Hs : Str.all operand_char ?t = true |- _ =>
           exists (String a "" ++ t); repeat split;
           [ discriminate | simpl; now rewrite Ha, Hs
           | repeat (rewrite ?length_append; simpl); lia ]
       end.
Qed.

Lemma Matches_rgxParseOperation w c :
  Matches rgxParseOperation w [] c ->
  exists num exp,
    c = [(2%nat, exp); (1%nat, num)]
    /\ num <> "" /\ Str.all operand_char num = true
    /\ exp <> "" /\ Str.all operand_char exp = true
    /\ (String.length num + String.length exp < String.length w)%nat.
Proof.
  unfold rgxParseOperation. intros H. inv_matches.
  unfold Char in *. inv_matches.
  repeat match goal with
    | H : Matches (operand_pattern _) _ _ _ |- _ =>
        apply Matches_operand_pattern in H as (? & ? & ? & ? & ?)
    end.
  subst.
  match goal with
  | |- exists num exp, [(_, ?e); (_, ?n)] = _ /\ _ => exists n, e
  end.
  repeat split; auto.
  repeat (rewrite ?length_append; simpl). lia.
Qed.

Lemma regex_search_operation s c :
  regex_search rgxParseOperation s = Some c ->
  exists num exp,
    c = [(2%nat, exp); (1%nat, num)]
    /\ num <> "" /\ Str.all operand_char num = true
    /\ exp <> "" /\ Str.all operand_char exp = true
    /\ (String.length num + String.length exp < String.length s)%nat.
Proof.
  intros H. apply regex_search_sound in H as (pre & w & post & -> & M).
  apply Matches_rgxParseOperation in M as (num & exp & ? & ? & ? & ? & ? & ?).
  exists num, exp. repeat split; auto.
  rewrite !length_append. lia.
Qed.

(* ================================================================== *)
(** * Digit strings *)

Lemma all_find_if_none (p q : ascii -> bool) (s : string) :
  (forall a, p a = true -> q a = false) ->
  Str.all p s = true -> Str.find_if q s = None.
Proof.
  intros Hpq. induction s as [|a s IH]; simpl; [reflexivity|].
  intros H. apply andb_true_iff in H as [Ha Hs].
  rewrite (Hpq a Ha), (IH Hs). reflexivity.
Qed.

Lemma is_digit_not (c : ascii) :
  is_digit c = false -> forall a, is_digit a = true -> Ascii.eqb c a = false.
Proof.
  intros Hc a Ha. destruct (Ascii.eqb_spec c a) as [->|]; congruence.
Qed.

Lemma digits_find (c : ascii) (s : string) :
  is_digit c = false -> Str.all is_digit s = true -> Str.find c s = None.
Proof.
  intros Hc. apply all_find_if_none. now apply is_digit_not.
Qed.

Lemma digits_operand (s : string) :
  Str.all is_digit s = true -> Str.all operand_char s = true.
Proof.
  induction s as [|a s IH]; simpl; [reflexivity|].
  intros H. apply andb_true_iff in H as [Ha Hs].
  unfold operand_char at 1. now rewrite Ha, (IH Hs).
Qed.

Lemma operand_without_caret (s : string) :
  Str.all operand_char s = true -> Str.find "^" s = None ->
  Str.all is_digit s = true.
Proof.
  unfold Str.find. induction s as [|a s IH]; cbn [Str.all Str.find_if]; [reflexivity|].
  intros H F. apply andb_true_iff in H as [Ha Hs].
  destruct (Ascii.eqb "^" a) eqn:E; [discriminate F|].
  unfold operand_char in Ha. rewrite Ascii.eqb_sym, E, orb_false_r in Ha.
  rewrite Ha. cbn [andb]. apply IH; [exact Hs|].
  destruct (Str.find_if (Ascii.eqb "^") s); [discriminate F | reflexivity].
Qed.

Lemma string_of_uint_digits (d : uint) :
  Str.all is_digit (NilEmpty.string_of_uint d) = true.
Proof. induction d; simpl; try rewrite IHd; reflexivity. Qed.

Lemma string_of_uint_nonempty (d : uint) :
  d <> Nil -> NilEmpty.string_of_uint d <> "".
Proof. destruct d; simpl; intros H; try discriminate. now elim H. Qed.

Lemma stringify_nonneg (z : Z) :
  0 <= z -> stringify z = NilZero.string_of_uint (N.to_uint (Z.to_N z)).
Proof. destruct z; simpl; intros H; try reflexivity. now elim H. Qed.

Lemma stringify_digits (z : Z) :
  0 <= z -> Str.all is_digit (stringify z) = true /\ stringify z <> "".
Proof.
  intros H. rewrite (stringify_nonneg z H).
  unfold NilZero.string_of_uint.
  destruct (N.to_uint (Z.to_N z)) eqn:E;
    (split; [ try reflexivity; rewrite <- E | try discriminate ]).
  all: try (rewrite E; change (Str.all is_digit (NilEmpty.string_of_uint (D0 u)) = true)).
  all: try apply string_of_uint_digits.
Qed.

(* ================================================================== *)
(** * The evaluator on digit strings *)

Section EvaluatorFacts.

Context {LD : LongDouble}.

(** The two tests of the evaluator, read on the text of an operand. *)
Lemma find_if_in_range (p : ascii -> bool) (s : string) :
  Str.lt (Str.find_if p s) (Str.size s) = negb (Str.all (fun a => negb (p a)) s).
Proof.
  unfold Str.size. induction s as [|a s IH]; cbn [Str.find_if Str.all String.length].
  - reflexivity.
  - destruct (p a); cbn [negb andb]; [reflexivity|].
    rewrite <- IH. destruct (Str.find_if p s); reflexivity.
Qed.

Lemma hasFloatingPoint_spec (p : Pow) :
  hasFloatingPoint p = true
  <-> Str.find "." (number p) <> None \/ Str.find "." (exponent p) <> None.
Proof.
  unfold hasFloatingPoint, Str.find. rewrite orb_true_iff, !find_if_in_range.
  rewrite !negb_true_iff, <- !not_true_iff_false, <- !find_if_none. tauto.
Qed.

Lemma leading_minus (s : string) :
  Str.lt (Str.find_first_of "-" s) (Str.find_first_not_of "-" s) = true
  <-> exists s', s = String "-" s'.
Proof.
  unfold Str.find_first_of, Str.find_first_not_of.
  destruct s as [|a s]; cbn [Str.find_if Str.mem].
  - split; [discriminate | intros (s' & H); discriminate H].
  - rewrite orb_false_r. destruct (Ascii.eqb_spec a "-") as [->|Ha]; cbn [negb].
    + split; [eauto|]. intros _.
      destruct (Str.find_if _ s); reflexivity.
    + split; [|intros (s' & [= H _]); now elim Ha].
      destruct (Str.find_if _ s); discriminate.
Qed.

Lemma hasNegative_spec (p : Pow) :
  hasNegative p = true
  <-> (exists s, number p = String "-" s) \/ (exists s, exponent p = String "-" s).
Proof.
  unfold hasNegative. cbv zeta. rewrite orb_true_iff, !leading_minus. tauto.
Qed.

Lemma digit_not_minus (a : ascii) : is_digit a = true -> Str.mem a "-" = false.
Proof.
  intros Ha. cbn [Str.mem]. rewrite orb_false_r.
  destruct (Ascii.eqb_spec a "-") as [->|]; [discriminate Ha | reflexivity].
Qed.

Lemma digits_domain (a b : string) :
  Str.all is_digit a = true -> Str.all is_digit b = true ->
  hasFloatingPoint {| number := a; exponent := b |} = false
  /\ hasNegative {| number := a; exponent := b |} = false.
Proof.
  intros Ha Hb. unfold hasFloatingPoint, hasNegative. cbn [number exponent].
  rewrite (digits_find "." a), (digits_find "." b) by (reflexivity || assumption).
  unfold Str.find_first_of.
  rewrite (all_find_if_none is_digit _ a digit_not_minus Ha).
  rewrite (all_find_if_none is_digit _ b digit_not_minus Hb).
  split; reflexivity.
Qed.

Lemma getResultString_digits (a b : string) :
  Str.all is_digit a = true -> Str.all is_digit b = true ->
  getResultString {| number := a; exponent := b |}
  = (r <- getResult_unsigned {| number := a; exponent := b |} ;; Returns (stringify r)).
Proof.
  intros Ha Hb. unfold getResultString.
  destruct (digits_domain a b Ha Hb) as [-> ->]. reflexivity.
Qed.

Lemma stoull_throws (s : string) (e : exception) :
  stoull s = Throws e -> e = ConversionError.
Proof.
  unfold stoull. destruct (NilZero.uint_of_string s); [|congruence].
  destruct (Z.leb _ _); congruence.
Qed.

Lemma stoull_defined (s : string) : stoull s <> Undefined.
Proof.
  unfold stoull. destruct (NilZero.uint_of_string s); [|congruence].
  destruct (Z.leb _ _); congruence.
Qed.

Lemma pow_long_long_throws (x y : Z) (e : exception) : pow_long_long x y <> Throws e.
Proof.
  unfold pow_long_long, Double.to_long_long.
  destruct (Double.pow _ _); try congruence.
  destruct (_ && _); congruence.
Qed.

Lemma getResult_unsigned_outcome (p : Pow) :
  match getResult_unsigned p with
  | Returns v => 0 <= v < 2 ^ 64
  | Throws e => e = ConversionError
  | Undefined => True
  end.
Proof.
  unfold getResult_unsigned, getResult_with.
  destruct (stoull (number p)) as [x|e|] eqn:Ex; cbn [bind];
    [| now apply stoull_throws in Ex | exact I].
  destruct (stoull (exponent p)) as [y|e|] eqn:Ey; cbn [bind];
    [| now apply stoull_throws in Ey | exact I].
  destruct (pow_long_long _ _) as [r|e|] eqn:Er; cbn [bind];
    [| now apply pow_long_long_throws in Er | exact I].
  unfold to_unsigned_long_long. apply Z.mod_pos_bound. reflexivity.
Qed.

Lemma getResultString_digits_outcome (a b : string) :
  Str.all is_digit a = true -> Str.all is_digit b = true ->
  match getResultString {| number := a; exponent := b |} with
  | Returns res => Str.all is_digit res = true /\ res <> ""
  | Throws e => e = ConversionError
  | Undefined => True
  end.
Proof.
  intros Ha Hb. rewrite (getResultString_digits a b Ha Hb).
  pose proof (getResult_unsigned_outcome {| number := a; exponent := b |}) as H.
  destruct (getResult_unsigned _) as [v|e|]; cbn [bind]; auto.
  apply stringify_digits. lia.
Qed.

End EvaluatorFacts.

(* ================================================================== *)
(** * The resolver: recursion depth and invariants *)

Section ResolverFacts.

Context {LD : LongDouble}.
Variable G : Global_t.

Lemma thrown_below_mono (n m : nat) (e : exception) :
  (n <= m)%nat -> thrown_below n e -> thrown_below m e.
Proof.
  intros Hnm [->|(t & -> & Ht)]; [now left | right].
  exists t. split; [reflexivity | lia].
Qed.

Lemma resolved_thrown (s : string) (e : exception) :
  resolved s (Throws e) -> thrown_below (S (String.length s)) e.
Proof.
  intros [[_ ->]|[_ H]].
  - right. exists s. split; [reflexivity | lia].
  - apply (thrown_below_mono (String.length s)); [lia | exact H].
Qed.

(** An operand after "resolve sub-expressions, if necessary". *)
Lemma sub_expression_resolved self (w : string) (n : nat) o :
  (forall o', self w = Some o' -> resolved w o') ->
  Str.all operand_char w = true -> (String.length w < n)%nat ->
  sub_expression self w = Some o ->
  match o with
  | Returns (eq, v) => Str.all is_digit v = true
  | Throws e => thrown_below n e
  | Undefined => True
  end.
Proof.
  intros Hself Hw Hn. unfold sub_expression.
  destruct (Str.find "^" w) eqn:F.
  - intros H. apply Hself in H. destruct o as [[eq v]|e|]; [apply H | | exact I].
    apply resolved_thrown in H. apply (thrown_below_mono (S (String.length w))); [lia | exact H].
  - intros [= <-]. now apply operand_without_caret.
Qed.

Lemma body_resolved self (s : string) o :
  (forall t o', self t = Some o' -> resolved t o') ->
  getOperationResult_body self G s = Some o -> resolved s o.
Proof.
  intros Hself. unfold getOperationResult_body.
  destruct (regex_search rgxParseOperation s) as [c|] eqn:E.
  2: { intros [= <-]. left. split; [exact E | reflexivity]. }
  assert (Hs : regex_search rgxParseOperation s <> None) by congruence.
  destruct (regex_search_operation s c E)
    as (num & exp & -> & Hn & Hnc & He & Hec & Hlen).
  cbn [sub_match Nat.eqb].
  destruct (sub_expression self num) as [on|] eqn:En; [|discriminate].
  pose proof (sub_expression_resolved self num (String.length s) on
                (Hself num) Hnc ltac:(lia) En) as Rn.
  destruct on as [[neq nv]|e|]; cbn [bind_depth fst snd];
    [| intros [= <-]; right; auto | intros [= <-]; exact I].
  destruct (sub_expression self exp) as [oe|] eqn:Ee; [|discriminate].
  pose proof (sub_expression_resolved self exp (String.length s) oe
                (Hself exp) Hec ltac:(lia) Ee) as Re.
  destruct oe as [[eeq ev]|e|]; cbn [bind_depth fst snd];
    [| intros [= <-]; right; auto | intros [= <-]; exact I].
  pose proof (getResultString_digits_outcome nv ev Rn Re) as Rr.
  destruct (getResultString _) as [res|e|]; cbn [bind_depth];
    intros [= <-]; cbn [resolved]; auto.
  right. split; [exact Hs | left; exact Rr].
Qed.

Lemma depth_resolved (d : nat) : forall s o,
  getOperationResult_depth d G s = Some o -> resolved s o.
Proof.
  induction d as [|d IH]; intros s o; cbn [getOperationResult_depth];
    [discriminate|].
  apply body_resolved. exact IH.
Qed.

(** The body only calls [self] on proper parts of its input. *)
Lemma body_ext self1 self2 (s : string) :
  (forall t, (String.length t < String.length s)%nat -> self1 t = self2 t) ->
  getOperationResult_body self1 G s = getOperationResult_body self2 G s.
Proof.
  intros H. unfold getOperationResult_body.
  destruct (regex_search rgxParseOperation s) as [c|] eqn:E; [|reflexivity].
  destruct (regex_search_operation s c E)
    as (num & exp & -> & Hn & Hnc & He & Hec & Hlen).
  cbn [sub_match Nat.eqb].
  assert (En : sub_expression self1 num = sub_expression self2 num).
  { unfold sub_expression. destruct (Str.find "^" num); [apply H; lia | reflexivity]. }
  assert (Ee : sub_expression self1 exp = sub_expression self2 exp).
  { unfold sub_expression. destruct (Str.find "^" exp); [apply H; lia | reflexivity]. }
  now rewrite En, Ee.
Qed.

Lemma depth_irrelevant (d1 : nat) : forall d2 s,
  (String.length s < d1)%nat -> (String.length s < d2)%nat ->
  getOperationResult_depth d1 G s = getOperationResult_depth d2 G s.
Proof.
  induction d1 as [|d1 IH]; intros d2 s H1 H2; [lia|].
  destruct d2 as [|d2]; [lia|]. cbn [getOperationResult_depth].
  apply body_ext. intros t Ht. apply IH; lia.
Qed.

(** The unfolding equation of [getOperationResult]: the depth bound is
    never met. *)
Lemma getOperationResult_unfold (s : string) :
  getOperationResult G s = getOperationResult_body (getOperationResult G) G s.
Proof.
  unfold getOperationResult at 1. cbn [getOperationResult_depth].
  apply body_ext. intros t Ht. unfold getOperationResult.
  apply depth_irrelevant; lia.
Qed.

Lemma body_total self (s : string) :
  (forall t, (String.length t < String.length s)%nat -> exists o, self t = Some o) ->
  exists o, getOperationResult_body self G s = Some o.
Proof.
  intros H. unfold getOperationResult_body.
  destruct (regex_search rgxParseOperation s) as [c|] eqn:E; [|eauto].
  destruct (regex_search_operation s c E)
    as (num & exp & -> & Hn & Hnc & He & Hec & Hlen).
  cbn [sub_match Nat.eqb].
  assert (Hsub : forall w, (String.length w < String.length s)%nat ->
                   exists o, sub_expression self w = Some o).
  { intros w Hw. unfold sub_expression. destruct (Str.find "^" w); eauto. }
  destruct (Hsub num ltac:(lia)) as ([n|e|] & ->); cbn [bind_depth]; eauto.
  destruct (Hsub exp ltac:(lia)) as ([n'|e|] & ->); cbn [bind_depth]; eauto.
  destruct (getResultString _); cbn [bind_depth]; eauto.
Qed.

Lemma depth_total (d : nat) : forall s,
  (String.length s < d)%nat -> exists o, getOperationResult_depth d G s = Some o.
Proof.
  induction d as [|d IH]; intros s Hs; [lia|]. cbn [getOperationResult_depth].
  apply body_total. intros t Ht. apply IH. lia.
Qed.

(** [getOperationResult] always finishes within its depth bound. *)
Lemma getOperationResult_total (s : string) :
  exists o, getOperationResult G s = Some o.
Proof. apply depth_total. lia. Qed.

Lemma getOperationResult_resolved (s : string) o :
  getOperationResult G s = Some o -> resolved s o.
Proof. apply depth_resolved. Qed.

End ResolverFacts.

(** The resolver never reaches the floating-point primitives: its
    outcome is the same on every platform. *)
Lemma body_platform (LD1 LD2 : LongDouble) self (G : Global_t) (s : string) :
  (forall t o, self t = Some o -> resolved t o) ->
  @getOperationResult_body LD1 self G s = @getOperationResult_body LD2 self G s.
Proof.
  intros Hself. unfold getOperationResult_body.
  destruct (regex_search rgxParseOperation s) as [c|] eqn:E; [|reflexivity].
  destruct (regex_search_operation s c E)
    as (num & exp & -> & Hn & Hnc & He & Hec & Hlen).
  cbn [sub_match Nat.eqb].
  destruct (sub_expression self num) as [on|] eqn:En; [|reflexivity].
  pose proof (sub_expression_resolved self num (String.length s) on
                (Hself num) Hnc ltac:(lia) En) as Rn.
  destruct on as [[neq nv]|e|]; cbn [bind_depth fst snd]; try reflexivity.
  destruct (sub_expression self exp) as [oe|] eqn:Ee; [|reflexivity].
  pose proof (sub_expression_resolved self exp (String.length s) oe
                (Hself exp) Hec ltac:(lia) Ee) as Re.
  destruct oe as [[eeq ev]|e|]; cbn [bind_depth fst snd]; try reflexivity.
  rewrite (@getResultString_digits LD1 nv ev Rn Re).
  rewrite (@getResultString_digits LD2 nv ev Rn Re).
  reflexivity.
Qed.

Lemma depth_platform (LD1 LD2 : LongDouble) (G : Global_t) (d : nat) : forall s,
  @getOperationResult_depth LD1 d G s = @getOperationResult_depth LD2 d G s.
Proof.
  induction d as [|d IH]; intros s; cbn [getOperationResult_depth]; [reflexivity|].
  rewrite (body_platform LD1 LD2).
  - apply body_ext. intros t _. apply IH.
  - apply depth_resolved.
Qed.

Lemma getOperationResult_platform (LD1 LD2 : LongDouble) (G : Global_t) (s : string) :
  @getOperationResult LD1 G s = @getOperationResult LD2 G s.
Proof. apply depth_platform. Qed.

(* ================================================================== *)
(** * The search on two runs of digits around a caret *)

Lemma digit_chars (a : ascii) :
  is_digit a = true ->
  operand_char a = true /\ is_space a = false /\ Ascii.eqb "(" a = false
  /\ Ascii.eqb ")" a = false /\ Ascii.eqb "^" a = false.
Proof.
  destruct a as [[|] [|] [|] [|] [|] [|] [|] [|]]; intros H;
    try discriminate H; repeat split.
Qed.

Lemma star_backtrack p u v k x :
  Str.all p u = true -> star p v k = Some x -> star p (u ++ v) k = Some x.
Proof.
  intros Hu Hv. induction u as [|a u IH]; simpl in *; [exact Hv|].
  apply andb_true_iff in Hu as [Ha Hu]. now rewrite Ha, (IH Hu).
Qed.

Lemma star_none p s k :
  (forall pre t, s = pre ++ t -> k t = None) -> star p s k = None.
Proof.
  induction s as [|a s IH]; intros H; simpl.
  - apply (H "" ""). reflexivity.
  - rewrite IH.
    + destruct (p a); apply (H "" (String a s)); reflexivity.
    + intros pre t ->. apply (H (String a pre) t). reflexivity.
Qed.


Lemma digits_suffix (s pre t : string) :
  Str.all is_digit s = true -> s = pre ++ t -> digit_or_end t.
Proof.
  intros H ->. rewrite all_app in H. apply andb_true_iff in H as [_ H].
  destruct t as [|a t]; simpl in *; [exact I|].
  now apply andb_true_iff in H as [H _].
Qed.

Lemma run_Char_digit ch t c k :
  is_digit ch = false -> digit_or_end t -> run (Char ch) t c k = None.
Proof.
  intros Hch Ht. unfold Char. cbn [run]. destruct t as [|a t]; [reflexivity|].
  cbn in Ht. now rewrite (is_digit_not ch Hch a Ht).
Qed.

(** The operand group takes the whole run of digits when the rest of the
    pattern accepts what follows. *)
Lemma run_operand_greedy i g c k x :
  Str.all is_digit g = true -> g <> "" ->
  k "" ((i, g) :: c) = Some x ->
  run (operand_pattern i) g c k = Some x.
Proof.
  intros Hg Hne Hk. destruct g as [|d g]; [now elim Hne|].
  cbn [Str.all] in Hg. apply andb_true_iff in Hg as [Hd Hg].
  destruct (digit_chars d Hd) as (Od & _ & Ld & _ & _).
  unfold operand_pattern, Plus, Char. cbn [run]. rewrite Ld, Od.
  rewrite <- (append_nil_r g) at 1.
  apply star_backtrack; [now apply digits_operand|].
  cbn [star]. rewrite <- (append_nil_r (String d g)) at 1.
  rewrite between_app. now rewrite Hk.
Qed.

(** The operand group gives back everything from the last caret that is
    followed by digits only, when the rest of the pattern needs a caret. *)
Lemma run_operand_backtrack i g h c k x :
  Str.all is_digit g = true -> g <> "" -> Str.all is_digit h = true ->
  (forall t c', digit_or_end t -> k t c' = None) ->
  k (String "^" h) ((i, g) :: c) = Some x ->
  run (operand_pattern i) (g ++ String "^" h) c k = Some x.
Proof.
  intros Hg Hne Hh Hfail Hk. destruct g as [|d g]; [now elim Hne|].
  cbn [Str.all] in Hg. apply andb_true_iff in Hg as [Hd Hg].
  destruct (digit_chars d Hd) as (Od & _ & Ld & _ & _).
  unfold operand_pattern, Plus, Char. cbn [run append]. rewrite Ld, Od.
  apply star_backtrack; [now apply digits_operand|].
  cbn [star]. change (operand_char "^") with true. cbv iota.
  rewrite star_none.
  - change (String d (g ++ String "^" h)) with (String d g ++ String "^" h).
    rewrite between_app. now rewrite Hk.
  - intros pre t E. pose proof (digits_suffix h pre t Hh E) as Ht.
    rewrite Hfail by exact Ht.
    destruct t as [|a t]; [reflexivity|]. cbn in Ht.
    now rewrite (is_digit_not ")" eq_refl a Ht).
Qed.

Lemma match_here_digits (da db : string) :
  Str.all is_digit da = true -> da <> "" ->
  Str.all is_digit db = true -> db <> "" ->
  match_here rgxParseOperation (da ++ String "^" db)
  = Some [(2%nat, db); (1%nat, da)].
Proof.
  intros Ha Hna Hb Hnb. unfold match_here, rgxParseOperation. cbn [run].
  apply run_operand_backtrack; auto.
  - intros t c' Ht. destruct t as [|a t]; [reflexivity|]. cbn in Ht.
    destruct (digit_chars a Ht) as (_ & Sa & _ & _ & Ca).
    cbn [star]. rewrite Sa. unfold Char. cbn [run]. now rewrite Ca.
  - cbn [star]. change (is_space "^") with false. cbv iota.
    unfold Char at 1. cbn [run]. change (Ascii.eqb "^" "^") with true. cbv iota.
    destruct db as [|d db]; [now elim Hnb|].
    pose proof Hb as Hb'. cbn [Str.all] in Hb'. apply andb_true_iff in Hb' as [Hd _].
    destruct (digit_chars d Hd) as (_ & Sd & _ & _ & _).
    cbn [star]. rewrite Sd.
    apply run_operand_greedy; auto.
Qed.

Lemma regex_search_digits (da db : string) :
  Str.all is_digit da = true -> da <> "" ->
  Str.all is_digit db = true -> db <> "" ->
  regex_search rgxParseOperation (da ++ String "^" db)
  = Some [(2%nat, db); (1%nat, da)].
Proof.
  intros Ha Hna Hb Hnb.
  pose proof (match_here_digits da db Ha Hna Hb Hnb) as H.
  destruct da as [|d da]; [now elim Hna|].
  cbn [append regex_search] in *. now rewrite H.
Qed.

(* ================================================================== *)
(** * Exact powers *)

Local Open Scope Z_scope.

Lemma round_half_even_exact (n : Z) : Double.round_half_even n 1 = n.
Proof.
  unfold Double.round_half_even. rewrite Z.mod_1_r, Z.div_1_r. reflexivity.
Qed.

Lemma exponent_of_integer (a : Z) : 0 < a -> Double.exponent_of a 1 = Z.log2 a.
Proof.
  intros Ha. unfold Double.exponent_of. change (Z.log2 1) with 0. rewrite Z.sub_0_r.
  pose proof (Z.log2_nonneg a) as Hk. pose proof (Z.log2_spec a Ha) as [Hl _].
  rewrite Z.max_r by lia. rewrite Z.max_l by lia.
  rewrite Z.mul_1_l, Z.pow_0_r, Z.mul_1_r.
  destruct (Z.leb_spec (2 ^ Z.log2 a) a); [reflexivity | lia].
Qed.

Lemma of_integer_exact (x : Z) :
  Z.abs x < 2 ^ 53 ->
  exists m e, Double.of_integer x = Double.Finite m e /\ Double.truncate m e = x.
Proof.
  intros Hx. unfold Double.of_integer, Double.of_ratio.
  destruct (Z.eqb_spec x 0) as [->|Hx0].
  { exists 0, 0. split; reflexivity. }
  assert (Ha : 0 < Z.abs x) by lia.
  rewrite (exponent_of_integer _ Ha).
  pose proof (Z.log2_nonneg (Z.abs x)) as Hk0.
  assert (Hk : Z.log2 (Z.abs x) < 53) by (apply Z.log2_lt_pow2; lia).
  set (k := Z.log2 (Z.abs x)) in *.
  rewrite (Z.max_l (k - 52) (-1074)) by lia.
  rewrite (Z.max_l 0 (k - 52)) by lia.
  rewrite (Z.max_r 0 (- (k - 52))) by lia.
  rewrite Z.pow_0_r, Z.mul_1_l, round_half_even_exact, Z.mul_1_r.
  assert (Hp : 0 < 2 ^ (- (k - 52))) by (apply Z.pow_pos_nonneg; lia).
  assert (Hb : Z.abs x * 2 ^ (- (k - 52)) < 2 ^ 1024).
  { assert (2 ^ (- (k - 52)) <= 2 ^ 52) by (apply Z.pow_le_mono_r; lia).
    apply Z.lt_le_trans with (2 ^ 53 * 2 ^ 52); [nia | now vm_compute]. }
  destruct (Z.leb_spec (2 ^ 1024) (Z.abs x * 2 ^ (- (k - 52)))); [lia|].
  eexists _, _. split; [reflexivity|].
  unfold Double.truncate.
  destruct (Z.leb_spec 0 (k - 52)).
  - replace (k - 52) with 0 by lia. rewrite Z.pow_0_r, !Z.mul_1_r.
    rewrite Z.mul_comm. apply Z.abs_sgn.
  - rewrite Z.mul_assoc, (Z.mul_comm (Z.sgn x)), Z.abs_sgn.
    apply Z.quot_mul. lia.
Qed.

Lemma round_half_even_bounds (num den : Z) :
  0 <= num -> 0 < den ->
  num / den <= Double.round_half_even num den <= num / den + 1.
Proof.
  intros Hn Hd. unfold Double.round_half_even.
  destruct (_ ?= _); [destruct (Z.even _) | |]; lia.
Qed.

(** Every 64-bit integer converts to a finite [double], exactly when it
    is below [2^53], and to a positive one when it is positive. *)
Lemma of_integer_finite (x : Z) :
  Z.abs x < 2 ^ 64 ->
  exists m e, Double.of_integer x = Double.Finite m e
              /\ (Z.abs x < 2 ^ 53 -> Double.truncate m e = x)
              /\ (0 < x -> 0 < Double.truncate m e).
Proof.
  intros Hx. destruct (Z.lt_ge_cases (Z.abs x) (2 ^ 53)) as [Hs|Hl].
  { destruct (of_integer_exact x Hs) as (m & e & E & T).
    exists m, e. repeat split; auto. intros. now rewrite T. }
  assert (Ha : 0 < Z.abs x) by (assert (0 < 2 ^ 53) by reflexivity; lia).
  unfold Double.of_integer, Double.of_ratio.
  destruct (Z.eqb_spec x 0) as [->|Hx0]; [discriminate Ha|].
  rewrite (exponent_of_integer _ Ha).
  assert (Hk1 : 53 <= Z.log2 (Z.abs x)) by (apply Z.log2_le_pow2; lia).
  assert (Hk2 : Z.log2 (Z.abs x) < 64) by (apply Z.log2_lt_pow2; lia).
  pose proof (Z.log2_spec _ Ha) as [Hlo _].
  set (k := Z.log2 (Z.abs x)) in *.
  rewrite (Z.max_l (k - 52) (-1074)) by lia.
  rewrite (Z.max_r 0 (k - 52)) by lia.
  rewrite (Z.max_l 0 (- (k - 52))) by lia.
  rewrite Z.pow_0_r, Z.mul_1_r, Z.mul_1_l.
  assert (Hp : 0 < 2 ^ (k - 52)) by (apply Z.pow_pos_nonneg; lia).
  assert (Hpk : 2 ^ (k - 52) <= 2 ^ k) by (apply Z.pow_le_mono_r; lia).
  assert (Hp11 : 2 ^ (k - 52) <= 2 ^ 11) by (apply Z.pow_le_mono_r; lia).
  pose proof (round_half_even_bounds (Z.abs x) (2 ^ (k - 52)) ltac:(lia) Hp) as [Hq1 Hq2].
  assert (Hq : 1 <= Z.abs x / 2 ^ (k - 52)).
  { apply Z.div_le_lower_bound; lia. }
  assert (Hqu : Z.abs x / 2 ^ (k - 52) <= Z.abs x).
  { apply Z.div_le_upper_bound; [lia | nia]. }
  set (m := Double.round_half_even (Z.abs x) (2 ^ (k - 52))) in *.
  assert (Hb : m * 2 ^ (k - 52) < 2 ^ 1024).
  { apply Z.le_lt_trans with (2 ^ 64 * 2 ^ 11); [|reflexivity].
    apply Z.mul_le_mono_nonneg; lia. }
  destruct (Z.leb_spec (2 ^ 1024) (m * 2 ^ (k - 52))); [lia|].
  eexists _, _. split; [reflexivity|]. split; [lia|].
  intros Hpos. unfold Double.truncate.
  destruct (Z.leb_spec 0 (k - 52)); [|lia].
  rewrite Z.sgn_pos by exact Hpos. nia.
Qed.

Lemma pow_base_le (a b : Z) : 0 <= a -> 0 < b -> a <= a ^ b.
Proof.
  intros Ha Hb. replace b with (Z.succ (b - 1)) by lia.
  rewrite Z.pow_succ_r by lia.
  destruct (Z.eq_dec a 0) as [->|Hn]; [lia|].
  assert (0 < a ^ (b - 1)) by (apply Z.pow_pos_nonneg; lia). nia.
Qed.

Lemma to_long_long_small (z : Z) : 0 <= z < 2 ^ 63 -> to_long_long z = z.
Proof.
  intros Hz. unfold to_long_long.
  assert (2 ^ 63 < 2 ^ 64) by reflexivity.
  rewrite Z.mod_small by lia.
  destruct (Z.ltb_spec z (2 ^ 63)); [reflexivity | lia].
Qed.

Lemma to_long_long_range (z : Z) : - 2 ^ 63 <= to_long_long z < 2 ^ 63.
Proof.
  unfold to_long_long.
  pose proof (Z.mod_pos_bound z (2 ^ 64) eq_refl) as H.
  assert (2 ^ 64 = 2 * 2 ^ 63) by reflexivity.
  destruct (Z.ltb_spec (z mod 2 ^ 64) (2 ^ 63)); lia.
Qed.

Lemma to_long_long_of_small_double (z : Z) :
  0 <= z < 2 ^ 53 -> Double.to_long_long (Double.of_integer z) = Returns z.
Proof.
  intros Hz. destruct (of_integer_exact z) as (m & e & -> & T); [lia|].
  unfold Double.to_long_long. rewrite T. unfold LLONG_MIN, LLONG_MAX.
  assert (2 ^ 53 <= 2 ^ 63 - 1) by now vm_compute.
  destruct (Z.leb_spec (- 2 ^ 63) z); [|lia].
  destruct (Z.leb_spec z (2 ^ 63 - 1)); [reflexivity | lia].
Qed.

(** [std::pow] at the [long long] images of [a] and [b] is exact when
    the power is below [2^53]. *)
Lemma pow_long_long_exact (a b : Z) :
  0 <= a <= ULLONG_MAX -> 0 <= b <= LLONG_MAX -> a ^ b < 2 ^ 53 ->
  pow_long_long (to_long_long a) (to_long_long b) = Returns (a ^ b).
Proof.
  unfold ULLONG_MAX, LLONG_MAX. intros Ha Hb Hab.
  rewrite (to_long_long_small b) by lia.
  pose proof (to_long_long_range a) as Hr.
  assert (E63 : 2 ^ 63 < 2 ^ 64) by reflexivity.
  assert (E53 : 2 ^ 53 < 2 ^ 63) by reflexivity.
  unfold pow_long_long.
  destruct (of_integer_finite (to_long_long a)) as (mx & ex & -> & Tx & _); [lia|].
  destruct (of_integer_finite b) as (my & ey & -> & Ty & Py); [lia|].
  unfold Double.pow.
  destruct (Z.eq_dec b 0) as [->|Hb0].
  { rewrite Ty by (cbn; lia). cbn [Z.eqb]. rewrite Z.pow_0_r.
    now apply to_long_long_of_small_double. }
  specialize (Py ltac:(lia)).
  destruct (Z.eqb_spec (Double.truncate my ey) 0); [lia|].
  destruct (Z.ltb_spec 0 (Double.truncate my ey)); [|lia].
  assert (Hsm : a < 2 ^ 53) by (pose proof (pow_base_le a b); lia).
  rewrite (to_long_long_small a) in Tx by lia.
  rewrite Tx by lia.
  assert (Hp : 0 <= a ^ b) by (apply Z.pow_nonneg; lia).
  assert (Epow : a ^ Double.truncate my ey = a ^ b).
  { destruct (Z.le_gt_cases a 1) as [Hle|Hgt].
    - assert (a = 0 \/ a = 1) as [->| ->] by lia.
      + now rewrite !Z.pow_0_l by lia.
      + now rewrite !Z.pow_1_l by lia.
    - rewrite Ty; [reflexivity|].
      assert (b < 53); [|assert (2 ^ 53 <= 2 ^ 53) by lia; lia].
      apply (Z.pow_lt_mono_r_iff 2); [lia | lia|].
      apply Z.le_lt_trans with (a ^ b); [|exact Hab].
      apply Z.pow_le_mono_l. lia. }
  rewrite Epow. apply to_long_long_of_small_double. lia.
Qed.

Lemma stoull_stringify (a : Z) :
  0 <= a <= ULLONG_MAX -> stoull (stringify a) = Returns a.
Proof.
  intros Ha. rewrite stringify_nonneg by lia. unfold stoull.
  rewrite NilZero.usu.
  - unfold Z.of_uint. change Pos.of_uint with N.of_uint.
    rewrite DecimalN.Unsigned.of_to, Z2N.id by lia.
    destruct (Z.leb_spec a ULLONG_MAX); [reflexivity | lia].
  - destruct (Z.to_N a); [discriminate|]. apply DecimalPos.Unsigned.to_uint_nonnil.
Qed.

Lemma stringify_no_leading_zero (z : Z) :
  0 < z -> exists a rest, stringify z = String a rest /\ a <> "0"%char.
Proof.
  destruct z as [|p|p]; try (intros H; discriminate H). intros _.
  unfold stringify. cbn [Z.to_int NilZero.string_of_int].
  pose proof (DecimalPos.Unsigned.to_uint_nonnil p) as Hnil.
  pose proof (DecimalPos.Unsigned.to_uint_nonzero p) as Hzero.
  pose proof (DecimalPos.Unsigned.to_of (Pos.to_uint p)) as Hn.
  rewrite DecimalPos.Unsigned.of_to in Hn. cbn [N.to_uint] in Hn.
  assert (Hh : nzhead (Pos.to_uint p) <> Nil).
  { intros E. unfold unorm in Hn. rewrite E in Hn. now apply Hzero. }
  rewrite (unorm_nzhead _ Hh) in Hn.
  pose proof (nzhead_nonzero (Pos.to_uint p)) as Hd. rewrite <- Hn in Hd.
  destruct (Pos.to_uint p) as [|u|u|u|u|u|u|u|u|u|u];
    [ now elim Hnil | now elim (Hd u) | .. ];
    cbn [NilZero.string_of_uint NilEmpty.string_of_uint];
    eexists _, _; (split; [reflexivity | discriminate]).
Qed.

(* ================================================================== *)
(** * The embedding at work *)

Section Examples.

Context {LD : LongDouble}.

Example search_in_parentheses :
  regex_search rgxParseOperation "abc(2^3) ^  (4^5)def"
  = Some [(2%nat, "4^5"); (1%nat, "2^3")].
Proof. reflexivity. Qed.

Example search_gives_back_a_caret :
  regex_search rgxParseOperation "1^2^" = Some [(2%nat, "2^"); (1%nat, "1")].
Proof. reflexivity. Qed.

Example double_ties_to_even :
  Double.of_integer (2 ^ 53 + 1) = Double.Finite (2 ^ 52) 1
  /\ Double.of_integer (2 ^ 53 + 3) = Double.Finite (2 ^ 52 + 2) 1.
Proof. split; reflexivity. Qed.

Example double_reciprocal :
  Double.pow (Double.of_integer 3) (Double.of_integer (- 1))
  = Double.Finite 6004799503160661 (- 54).
Proof. reflexivity. Qed.

Example pow_out_of_range : pow_long_long 2 63 = Undefined.
Proof. reflexivity. Qed.

Example signed_evaluation :
  getResultString {| number := "-2"; exponent := "2" |} = Returns "4"
  /\ getResultString {| number := "2"; exponent := "-1" |} = Returns "0".
Proof. split; vm_compute; reflexivity. Qed.

Example resolve_in_parentheses :
  getOperationResult plain "2 ^ (3^2)" = Some (Returns ("2 ^ (3 ^ 2 = 9) = 512", "512")).
Proof. vm_compute. reflexivity. Qed.

Example resolve_three_levels :
  getOperationResult plain "2^3^4^5"
  = Some (Returns ("((2 ^ 3 = 8) ^ 4 = 4096) ^ 5 = 1152921504606846976",
                   "1152921504606846976")).
Proof. vm_compute. reflexivity. Qed.

Example resolve_styled :
  getOperationResult
    {| quiet := false;
       colors := {| active := true; sequence := fun _ => "<"; reset := ">" |} |}
    "2^3"
  = Some (Returns ("<2> <^> <3> <=> <8>", "8")).
Proof. vm_compute. reflexivity. Qed.

Example resolve_operand_too_large :
  getOperationResult plain "18446744073709551616^1" = Some (Throws ConversionError).
Proof. vm_compute. reflexivity. Qed.

Example resolve_power_too_large :
  getOperationResult plain "2^64" = Some Undefined.
Proof. vm_compute. reflexivity. Qed.

End Examples.

(* ================================================================== *)
(** * The properties of the specification *)

Local Open Scope string_scope.

Lemma no_caret_no_match (s : string) :
  Str.find "^" s = None -> regex_search rgxParseOperation s = None.
Proof.
  intros F. apply regex_search_none. intros (pre & w & post & c & -> & M).
  apply find_if_none in F. rewrite !all_app in F.
  apply andb_true_iff in F as [_ F]. apply andb_true_iff in F as [F _].
  unfold rgxParseOperation in M. inv_matches. unfold Char in *. inv_matches.
  rewrite !all_app in F.
  apply andb_true_iff in F as [_ F]. apply andb_true_iff in F as [_ F].
  apply andb_true_iff in F as [F _]. cbn [Str.all] in F.
  match goal with
  | H : Ascii.eqb "^" ?a = true |- _ => rewrite H in F
  end.
  discriminate F.
Qed.

Section Claims.

Context {LD : LongDouble}.

(** C1, as the code has it: on the input "2^3^2" the search gives the number
    group "2^3" and the exponent group "2", so the nested match 2^3 is
    resolved to 8 first and the expression is grouped as (2^3)^2: the
    equation text is "(2 ^ 3 = 8) ^ 2 = 64" and the result text "64". *)
Theorem C1_nested_groups_to_the_left :
  regex_search rgxParseOperation "2^3^2" = Some [(2%nat, "2"); (1%nat, "2^3")]
  /\ getOperationResult plain "2^3" = Some (Returns ("2 ^ 3 = 8", "8"))
  /\ getOperationResult plain "2^3^2" = Some (Returns ("(2 ^ 3 = 8) ^ 2 = 64", "64")).
Proof. repeat split; vm_compute; reflexivity. Qed.

(** C2: the evaluator computes "-2" to the power "3" in the signed
    domain and prints "-8", but the resolver's pattern allows only digits
    and carets in an operand: on "-2^3" it drops the sign and returns the
    result text "8", and on no input does its result text carry a sign
    (it consists of digits). *)
Theorem C2_leading_minus_is_dropped :
  getResultString {| number := "-2"; exponent := "3" |} = Returns "-8"
  /\ regex_search rgxParseOperation "-2^3" = Some [(2%nat, "3"); (1%nat, "2")]
  /\ getOperationResult plain "-2^3" = Some (Returns ("2 ^ 3 = 8", "8"))
  /\ (forall G s eq res,
        getOperationResult G s = Some (Returns (eq, res)) ->
        Str.all is_digit res = true).
Proof.
  split; [vm_compute; reflexivity|].
  split; [vm_compute; reflexivity|].
  split; [vm_compute; reflexivity|].
  intros G s eq res H. now apply getOperationResult_resolved in H as [H _].
Qed.

(** C3: the evaluator selects the floating-point domain for the operands
    "2.0" and "3", but the resolver's pattern stops at the '.': on
    "2.0^3" the match is "0^3", evaluated in the unsigned domain, and the
    result text is "0", not 8; on no input does the resolver's outcome
    depend on the floating-point primitives. *)
Theorem C3_decimal_point_is_cut :
  hasFloatingPoint {| number := "2.0"; exponent := "3" |} = true
  /\ regex_search rgxParseOperation "2.0^3" = Some [(2%nat, "3"); (1%nat, "0")]
  /\ getOperationResult plain "2.0^3" = Some (Returns ("0 ^ 3 = 0", "0"))
  /\ (forall (LD' : LongDouble) G s,
        getOperationResult G s = @getOperationResult LD' G s).
Proof.
  split; [vm_compute; reflexivity|].
  split; [vm_compute; reflexivity|].
  split; [vm_compute; reflexivity|].
  intros LD' G s. apply getOperationResult_platform.
Qed.

(** C4, as the code has it: for all non-negative integers a <= 2^64 - 1 and
    b <= 2^63 - 1 whose power a^b is below 2^53, the result text of
    resolve("a^b") is the decimal text of a^b, without leading zeros; the
    equation text is rendered from the two operands and that result. *)
Theorem C4_exact_below_2_53 (G : Global_t) (a b : Z) :
  (0 <= a <= ULLONG_MAX)%Z -> (0 <= b <= LLONG_MAX)%Z -> (a ^ b < 2 ^ 53)%Z ->
  getOperationResult G (stringify a ++ "^" ++ stringify b)
  = Some (Returns (render G "" (stringify a) "" (stringify b) (stringify (a ^ b)),
                   stringify (a ^ b)))
  /\ (a ^ b = 0 /\ stringify (a ^ b) = "0"
      \/ exists c rest, stringify (a ^ b) = String c rest /\ c <> "0"%char).
Proof.
  intros Ha Hb Hab.
  assert (Hp : (0 <= a ^ b)%Z) by (apply Z.pow_nonneg; lia).
  assert (H63 : (LLONG_MAX <= ULLONG_MAX)%Z) by now vm_compute.
  assert (H53 : (2 ^ 53 < 2 ^ 64)%Z) by reflexivity.
  destruct (stringify_digits a) as [Da Na]; [lia|].
  destruct (stringify_digits b) as [Db Nb]; [lia|].
  split.
  - rewrite getOperationResult_unfold. unfold getOperationResult_body.
    cbn [append]. rewrite (regex_search_digits _ _ Da Na Db Nb).
    cbn [sub_match Nat.eqb]. unfold sub_expression.
    rewrite (digits_find "^" _ eq_refl Da), (digits_find "^" _ eq_refl Db).
    cbn [bind_depth fst snd].
    rewrite (getResultString_digits _ _ Da Db).
    unfold getResult_unsigned, getResult_with. cbn [number exponent].
    rewrite !stoull_stringify by lia. cbn [bind].
    rewrite (pow_long_long_exact a b Ha Hb Hab). cbn [bind].
    unfold to_unsigned_long_long. rewrite Z.mod_small; [reflexivity | lia].
  - destruct (Z.eq_dec (a ^ b) 0) as [E|E].
    + left. rewrite E. split; reflexivity.
    + right. apply stringify_no_leading_zero. lia.
Qed.

(** C5: on "^5" nothing matches the pattern, which requires characters in
    both groups, so the failure is the one for unrecognized syntax; the
    branch raising "Missing operand" is not taken. *)
Theorem C5_caret_first_is_unrecognized (G : Global_t) :
  regex_search rgxParseOperation "^5" = None
  /\ getOperationResult G "^5"
     = Some (Throws (make_exception "Unrecognized operation syntax '^5'")).
Proof. split; vm_compute; reflexivity. Qed.

(** C6: on "5^" nothing matches the pattern either, and the failure is
    the one for unrecognized syntax; the branch raising "Missing
    exponent" is not taken. *)
Theorem C6_caret_last_is_unrecognized (G : Global_t) :
  regex_search rgxParseOperation "5^" = None
  /\ getOperationResult G "5^"
     = Some (Throws (make_exception "Unrecognized operation syntax '5^'")).
Proof. split; vm_compute; reflexivity. Qed.

(** C7: whenever the pattern matches somewhere in the input, both groups
    took part in the match and are non-empty; so on no input does
    resolve raise "Missing operand and exponent", "Missing operand" or
    "Missing exponent", whatever text the message would name. *)
Theorem C7_missing_branches_unreachable (G : Global_t) (s : string) :
  (forall c, regex_search rgxParseOperation s = Some c ->
     exists num exp, sub_match c 1 = Some num /\ sub_match c 2 = Some exp
                     /\ num <> "" /\ exp <> "")
  /\ (forall raw,
        getOperationResult G s
          <> Some (Throws (quoted "Missing operand and exponent in '" raw))
        /\ getOperationResult G s <> Some (Throws (quoted "Missing operand in '" raw))
        /\ getOperationResult G s <> Some (Throws (quoted "Missing exponent in '" raw))).
Proof.
  split.
  - intros c H.
    apply regex_search_operation in H as (num & exp & -> & Hn & _ & He & _).
    exists num, exp. repeat split; auto.
  - assert (K : forall reason raw,
               (forall t, quoted reason raw <> unrecognized t) ->
               getOperationResult G s <> Some (Throws (quoted reason raw))).
    { intros reason raw Hne H. apply getOperationResult_resolved in H.
      destruct H as [[_ H]|[_ [H|(t & H & _)]]];
        [now apply (Hne s) | discriminate H | now apply (Hne t)]. }
    intros raw. repeat split; apply K; intros t; discriminate.
Qed.

(** C8, as the code has it: matching is by search: "abc2^3def" does not
    match the pattern as a whole, yet it resolves as "2^3", the
    characters around the match being ignored; and resolve
    raises the "Unrecognized operation syntax" error for its input if
    and only if no part of that input matches the pattern.  (The same
    rule holds for every nested operand, whose error is let through.) *)
Theorem C8_unrecognized_iff_no_match (G : Global_t) :
  ~ (exists c, Matches rgxParseOperation "abc2^3def" [] c)
  /\ getOperationResult plain "abc2^3def" = Some (Returns ("2 ^ 3 = 8", "8"))
  /\ forall s,
       getOperationResult G s = Some (Throws (unrecognized s))
       <-> ~ matches_within rgxParseOperation s.
Proof.
  split; [intros (c & M); now apply regex_match_complete in M|].
  split; [vm_compute; reflexivity|]. intros s. rewrite <- regex_search_none. split.
  - intros H. apply getOperationResult_resolved in H.
    destruct H as [[H _]|[_ [H|(t & H & Hlt)]]]; [exact H | discriminate H |].
    exfalso. injection H as H. apply (f_equal String.length) in H.
    rewrite !length_append in H. lia.
  - intros H. rewrite getOperationResult_unfold. unfold getOperationResult_body.
    now rewrite H.
Qed.

(** C9, as the code has it: text without a caret is the base case of the
    recursion in the caller: as an operand it is kept unchanged, with no
    equation text and no recursive call; resolve itself, called on such
    text, fails with "Unrecognized operation syntax". *)
Theorem C9_bare_number_is_not_resolved (G : Global_t) (s : string) :
  Str.find "^" s = None ->
  (forall self, sub_expression self s = Some (Returns ("", s)))
  /\ getOperationResult G s = Some (Throws (unrecognized s)).
Proof.
  intros F. split.
  - intros self. unfold sub_expression. now rewrite F.
  - rewrite getOperationResult_unfold. unfold getOperationResult_body.
    now rewrite (no_caret_no_match s F).
Qed.

(** C10: with quiet mode enabled and styling disabled, the equation text
    of every successfully resolved expression is exactly its result
    text. *)
Theorem C10_quiet_equation_is_result (G : Global_t) (s eq res : string) :
  quiet G = true -> active (colors G) = false ->
  getOperationResult G s = Some (Returns (eq, res)) ->
  eq = res.
Proof.
  intros Hq Ha. rewrite getOperationResult_unfold. unfold getOperationResult_body.
  destruct (regex_search rgxParseOperation s) as [c|]; [|discriminate].
  destruct (sub_match c 1), (sub_match c 2); try discriminate.
  destruct (sub_expression _ _) as [[n|e|]|]; cbn [bind_depth]; try discriminate.
  destruct (sub_expression _ _) as [[n'|e|]|]; cbn [bind_depth]; try discriminate.
  destruct (getResultString _) as [r|e|]; cbn [bind_depth]; try discriminate.
  intros [= <- <-]. unfold render, set_color, reset_color. rewrite Hq, Ha.
  cbn [append]. apply append_nil_r.
Qed.

End Claims.

(** ** The statements at concrete inputs *)

(** C1 as stated fails: "2^3^2" does not resolve to the equation text
    "2 ^ (3 ^ 2) = 512" with the result text "512". *)
Lemma C1_right_grouping_refuted :
  @getOperationResult no_long_double plain "2^3^2"
  <> Some (Returns ("2 ^ (3 ^ 2) = 512", "512")).
Proof. vm_compute. discriminate. Qed.

(** C4 as stated fails: 3^39 fits 64 bits, yet the result text of
    "3^39" is not the decimal text of 3^39 (it is 4052555153018976256,
    the nearest [double]). *)
Lemma C4_inexact_above_2_53 :
  ~ (exists eq, @getOperationResult no_long_double plain "3^39"
                = Some (Returns (eq, stringify (3 ^ 39)))).
Proof. intros (eq & H). vm_compute in H. discriminate H. Qed.

(** C4 at a = 2, b = 10. *)
Lemma C4_witness :
  @getOperationResult no_long_double plain "2^10"
  = Some (Returns ("2 ^ 10 = 1024", "1024")).
Proof.
  refine (proj1 (@C4_exact_below_2_53 no_long_double plain 2 10 _ _ _)).
  - split; vm_compute; discriminate.
  - split; vm_compute; discriminate.
  - reflexivity.
Defined.

(** C8 as stated fails: the whole of "2^^3" matches the pattern, and
    resolve still raises the unrecognized-syntax error, for the nested
    operand "2^". *)
Lemma C8_nested_operand_unrecognized :
  ~ ((exists t, @getOperationResult no_long_double plain "2^^3"
                = Some (Throws (unrecognized t)))
     <-> ~ matches_within rgxParseOperation "2^^3").
Proof.
  intros [H _].
  assert (N : ~ matches_within rgxParseOperation "2^^3").
  { apply H. exists "2^". vm_compute. reflexivity. }
  apply regex_search_none in N. vm_compute in N. discriminate N.
Qed.

(** C9 as stated fails: "2^9" resolves to the result text "512", and
    resolving "512" again does not return. *)
Lemma C9_result_text_is_rejected :
  ~ (forall eq res,
       @getOperationResult no_long_double plain "2^9" = Some (Returns (eq, res)) ->
       exists eq', @getOperationResult no_long_double plain res
                   = Some (Returns (eq', res))).
Proof.
  intros H. destruct (H "2 ^ 9 = 512" "512") as (eq' & E);
    [vm_compute; reflexivity|].
  vm_compute in E. discriminate E.
Qed.

(** C9 at the text "512". *)
Lemma C9_witness :
  @getOperationResult no_long_double plain "512"
  = Some (Throws (unrecognized "512")).
Proof.
  refine (proj2 (@C9_bare_number_is_not_resolved no_long_double plain "512" _)).
  reflexivity.
Defined.

(** C10 at the input "2^3^2" in quiet mode. *)
Lemma C10_witness :
  @getOperationResult no_long_double plain_quiet "2^3^2" = Some (Returns ("64", "64"))
  /\ "64" = "64".
Proof.
  split; [vm_compute; reflexivity|].
  refine (@C10_quiet_equation_is_result no_long_double plain_quiet "2^3^2" "64" "64" _ _ _);
    vm_compute; reflexivity.
Defined.

(* ================================================================== *)
(** * Further properties of the code *)

Local Open Scope string_scope.

(** ** Numbers as text, and conversions *)

Local Open Scope Z_scope.

Lemma stringify_negative (z : Z) :
  z < 0 -> stringify z = String "-" (stringify (- z)).
Proof.
  destruct z as [|p|p]; intros H; try discriminate H.
  unfold stringify. cbn [Z.to_int Z.opp NilZero.string_of_int]. reflexivity.
Qed.

Lemma stoll_stringify (a : Z) :
  LLONG_MIN <= a <= LLONG_MAX -> stoll (stringify a) = Returns a.
Proof.
  intros Ha. unfold stoll, stringify. rewrite NilZero.isi.
  - rewrite DecimalZ.of_to.
    destruct (Z.leb_spec LLONG_MIN a); [|lia].
    destruct (Z.leb_spec a LLONG_MAX); [reflexivity | lia].
  - destruct a; cbn; try discriminate.
    intros [= E]. now apply (DecimalPos.Unsigned.to_uint_nonnil p).
  - destruct a; cbn; try discriminate.
    intros [= E]. now apply (DecimalPos.Unsigned.to_uint_nonnil p).
Qed.

Lemma stringify_domain (a b : Z) :
  hasFloatingPoint {| number := stringify a; exponent := stringify b |} = false
  /\ hasNegative {| number := stringify a; exponent := stringify b |}
     = (a <? 0) || (b <? 0).
Proof.
  assert (F : forall z, Str.find "." (stringify z) = None).
  { intros z. destruct (Z.lt_ge_cases z 0) as [Hz|Hz].
    - rewrite (stringify_negative z Hz). unfold Str.find. cbn [Str.find_if].
      change (Ascii.eqb "." "-") with false. cbv iota.
      fold (Str.find "." (stringify (- z))).
      rewrite digits_find; [reflexivity | reflexivity |].
      apply stringify_digits. lia.
    - apply digits_find; [reflexivity|]. apply stringify_digits. lia. }
  assert (N : forall z,
             Str.lt (Str.find_first_of "-" (stringify z))
                    (Str.find_first_not_of "-" (stringify z)) = (z <? 0)).
  { intros z. destruct (Z.ltb_spec z 0) as [Hz|Hz].
    - apply leading_minus. rewrite (stringify_negative z Hz). eauto.
    - apply not_true_is_false. intros H. apply leading_minus in H as (s' & E).
      destruct (stringify_digits z Hz) as [D _]. rewrite E in D. discriminate D. }
  split.
  - apply not_true_is_false. intros H. apply hasFloatingPoint_spec in H.
    cbn [number exponent] in H. rewrite !F in H. tauto.
  - unfold hasNegative. cbv zeta. cbn [number exponent]. now rewrite !N.
Qed.

Lemma to_long_long_of_exact_double (z : Z) :
  Z.abs z < 2 ^ 53 -> Double.to_long_long (Double.of_integer z) = Returns z.
Proof.
  intros Hz. destruct (of_integer_exact z Hz) as (m & e & -> & T).
  unfold Double.to_long_long. rewrite T. unfold LLONG_MIN, LLONG_MAX.
  assert (2 ^ 53 <= 2 ^ 63 - 1) by now vm_compute.
  destruct (Z.leb_spec (- 2 ^ 63) z); [|lia].
  destruct (Z.leb_spec z (2 ^ 63 - 1)); [reflexivity | lia].
Qed.

(** Every 64-bit integer converts to a finite [double] of the same sign. *)
Lemma of_integer_sign (x : Z) :
  Z.abs x < 2 ^ 64 ->
  exists m e, Double.of_integer x = Double.Finite m e
              /\ Z.sgn (Double.truncate m e) = Z.sgn x
              /\ (2 <= Z.abs x -> 2 <= Z.abs (Double.truncate m e)).
Proof.
  intros Hx. destruct (Z.lt_ge_cases (Z.abs x) (2 ^ 53)) as [Hs|Hl].
  { destruct (of_integer_exact x Hs) as (m & e & E & T).
    exists m, e. now rewrite T. }
  assert (Ha : 0 < Z.abs x) by (assert (0 < 2 ^ 53) by reflexivity; lia).
  unfold Double.of_integer, Double.of_ratio.
  destruct (Z.eqb_spec x 0) as [->|Hx0]; [discriminate Ha|].
  rewrite (exponent_of_integer _ Ha).
  assert (Hk1 : 53 <= Z.log2 (Z.abs x)) by (apply Z.log2_le_pow2; lia).
  assert (Hk2 : Z.log2 (Z.abs x) < 64) by (apply Z.log2_lt_pow2; lia).
  pose proof (Z.log2_spec _ Ha) as [Hlo _].
  set (k := Z.log2 (Z.abs x)) in *.
  rewrite (Z.max_l (k - 52) (-1074)) by lia.
  rewrite (Z.max_r 0 (k - 52)) by lia.
  rewrite (Z.max_l 0 (- (k - 52))) by lia.
  rewrite Z.pow_0_r, Z.mul_1_r, Z.mul_1_l.
  assert (Hp : 0 < 2 ^ (k - 52)) by (apply Z.pow_pos_nonneg; lia).
  assert (Hpk : 2 ^ (k - 52) <= 2 ^ k) by (apply Z.pow_le_mono_r; lia).
  assert (Hp11 : 2 ^ (k - 52) <= 2 ^ 11) by (apply Z.pow_le_mono_r; lia).
  pose proof (round_half_even_bounds (Z.abs x) (2 ^ (k - 52)) ltac:(lia) Hp) as [Hq1 Hq2].
  assert (Hq : 1 <= Z.abs x / 2 ^ (k - 52)).
  { apply Z.div_le_lower_bound; lia. }
  assert (Hqu : Z.abs x / 2 ^ (k - 52) <= Z.abs x).
  { apply Z.div_le_upper_bound; [lia | nia]. }
  set (m := Double.round_half_even (Z.abs x) (2 ^ (k - 52))) in *.
  assert (Hb : m * 2 ^ (k - 52) < 2 ^ 1024).
  { apply Z.le_lt_trans with (2 ^ 64 * 2 ^ 11); [|reflexivity].
    apply Z.mul_le_mono_nonneg; lia. }
  destruct (Z.leb_spec (2 ^ 1024) (m * 2 ^ (k - 52))); [lia|].
  eexists _, _. split; [reflexivity|].
  unfold Double.truncate. destruct (Z.leb_spec 0 (k - 52)); [|lia].
  split.
  - rewrite Z.sgn_mul, Z.sgn_mul, (Z.sgn_pos m), (Z.sgn_pos (2 ^ _)) by lia.
    rewrite !Z.mul_1_r. apply Z.sgn_sgn.
  - intros _. rewrite !Z.abs_mul, (Z.abs_eq m), (Z.abs_eq (2 ^ _)) by lia.
    assert (H2 : 2 ^ 1 <= 2 ^ (k - 52)) by (apply Z.pow_le_mono_r; lia).
    assert (E1 : Z.abs (Z.sgn x) = 1) by (destruct x; try reflexivity; lia).
    rewrite E1. change (2 ^ 1) with 2 in H2. nia.
Qed.

(** A positive integer from [2^63] on converts to a [double] that the
    conversion back to [long long] cannot take. *)
Lemma to_long_long_of_large_double (z : Z) :
  2 ^ 63 <= z -> Double.to_long_long (Double.of_integer z) = Undefined.
Proof.
  intros Hz. assert (E63 : 0 < 2 ^ 63) by reflexivity.
  assert (Ha : 0 < z) by lia.
  unfold Double.of_integer, Double.of_ratio.
  destruct (Z.eqb_spec z 0); [lia|].
  rewrite (Z.abs_eq z) by lia. rewrite (exponent_of_integer _ Ha).
  assert (Hk1 : 63 <= Z.log2 z) by (apply Z.log2_le_pow2; lia).
  pose proof (Z.log2_spec _ Ha) as [Hlo _].
  set (k := Z.log2 z) in *.
  rewrite (Z.max_l (k - 52) (-1074)) by lia.
  rewrite (Z.max_r 0 (k - 52)) by lia.
  rewrite (Z.max_l 0 (- (k - 52))) by lia.
  rewrite Z.pow_0_r, Z.mul_1_r, Z.mul_1_l.
  destruct (Z.leb_spec (2 ^ 1024) (Double.round_half_even z (2 ^ (k - 52)) * 2 ^ (k - 52)));
    [reflexivity|].
  assert (Hp : 0 < 2 ^ (k - 52)) by (apply Z.pow_pos_nonneg; lia).
  pose proof (round_half_even_bounds z (2 ^ (k - 52)) ltac:(lia) Hp) as [Hq1 _].
  assert (Hq : 2 ^ 52 <= z / 2 ^ (k - 52)).
  { apply Z.div_le_lower_bound; [lia|].
    rewrite <- Z.pow_add_r by lia. replace (k - 52 + 52) with k by lia. lia. }
  set (m := Double.round_half_even z (2 ^ (k - 52))) in *.
  unfold Double.to_long_long, Double.truncate.
  destruct (Z.leb_spec 0 (k - 52)); [|lia].
  rewrite Z.sgn_pos, Z.mul_1_l by lia.
  assert (Hv : 2 ^ 63 <= m * 2 ^ (k - 52)).
  { apply Z.le_trans with (2 ^ 52 * 2 ^ (k - 52)).
    - rewrite <- Z.pow_add_r by lia. apply Z.pow_le_mono_r; lia.
    - apply Z.mul_le_mono_nonneg_r; lia. }
  unfold LLONG_MAX. destruct (Z.leb_spec (m * 2 ^ (k - 52)) (2 ^ 63 - 1)); [lia|].
  now rewrite andb_false_r.
Qed.

(** The reciprocal of an integer from 2 on is a [double] below 1. *)
Lemma of_ratio_reciprocal (s d : Z) :
  s = 1 \/ s = - 1 -> 2 <= d ->
  exists m e, Double.of_ratio s d = Double.Finite m e /\ Double.truncate m e = 0.
Proof.
  intros Hs Hd. unfold Double.of_ratio.
  destruct (Z.eqb_spec s 0); [lia|].
  replace (Z.abs s) with 1 by lia.
  assert (Hd0 : 0 < d) by lia.
  pose proof (Z.log2_spec d Hd0) as [Hlo Hhi].
  assert (HL : 1 <= Z.log2 d) by (apply Z.log2_le_pow2; lia).
  set (L := Z.log2 d) in *.
  assert (Hk : exists k, Double.exponent_of 1 d = k /\ k <= - 1 /\ 2 ^ (- k - 1) <= d).
  { unfold Double.exponent_of. change (Z.log2 1) with 0. fold L. cbn [Z.sub Z.add].
    replace (0 - L) with (- L) by lia.
    destruct (Z.leb_spec (d * 2 ^ Z.max 0 (- L)) (1 * 2 ^ Z.max 0 (- - L))).
    - exists (- L). repeat split; [lia|].
      replace (- - L - 1) with (L - 1) by lia.
      apply Z.le_trans with (2 ^ L); [apply Z.pow_le_mono_r; lia | exact Hlo].
    - exists (- L - 1). repeat split; [lia|].
      replace (- (- L - 1) - 1) with L by lia. exact Hlo. }
  destruct Hk as (k & -> & Hk1 & Hk2).
  set (e := Z.max (k - 52) (- 1074)).
  assert (He1 : e <= - 53) by (unfold e; lia).
  assert (He2 : k - 52 <= e) by (unfold e; lia).
  rewrite (Z.max_r 0 (- e)) by lia. rewrite (Z.max_l 0 e) by lia.
  rewrite Z.pow_0_r, Z.mul_1_l, !Z.mul_1_r.
  assert (Hp : 0 < 2 ^ (- e)) by (apply Z.pow_pos_nonneg; lia).
  assert (Hp53 : 2 ^ 53 <= 2 ^ (- e)) by (apply Z.pow_le_mono_r; lia).
  assert (E53 : 2 ^ 53 = 9007199254740992) by reflexivity.
  pose proof (round_half_even_bounds (2 ^ (- e)) d ltac:(lia) Hd0) as [Hq1 Hq2].
  assert (Hq0 : 0 <= 2 ^ (- e) / d) by (apply Z.div_pos; lia).
  assert (Hqh : 2 ^ (- e) / d <= 2 ^ (- e) / 2).
  { apply Z.div_le_compat_l; lia. }
  assert (Hh : 2 * (2 ^ (- e) / 2) <= 2 ^ (- e)) by (apply Z.mul_div_le; lia).
  assert (Hq53 : 2 ^ (- e) / d <= 2 ^ 53).
  { apply Z.div_le_upper_bound; [lia|].
    apply Z.le_trans with (2 ^ (52 - k)); [apply Z.pow_le_mono_r; lia|].
    replace (52 - k) with (53 + (- k - 1)) by lia.
    rewrite Z.pow_add_r by lia. rewrite Z.mul_comm. apply Z.mul_le_mono_nonneg_r; lia. }
  set (m := Double.round_half_even (2 ^ (- e)) d) in *.
  assert (Hm : m < 2 ^ 1024).
  { apply Z.le_lt_trans with (2 ^ 53 + 1); [lia | reflexivity]. }
  destruct (Z.leb_spec (2 ^ 1024) m); [lia|].
  eexists _, _. split; [reflexivity|].
  unfold Double.truncate. destruct (Z.leb_spec 0 e); [lia|].
  assert (Hlt : m < 2 ^ (- e)) by lia.
  destruct Hs as [-> | ->]; cbn [Z.sgn].
  - rewrite Z.mul_1_l. apply Z.quot_small. lia.
  - replace (-1 * m) with (- m) by lia. rewrite Z.quot_opp_l by lia.
    rewrite Z.quot_small by lia. reflexivity.
Qed.

(** ** The evaluator on signed operands *)

Lemma pow_long_long_exact_signed (x y : Z) :
  Z.abs x < 2 ^ 53 -> 0 <= y < 2 ^ 53 -> Z.abs (x ^ y) < 2 ^ 53 ->
  pow_long_long x y = Returns (x ^ y).
Proof.
  intros Hx Hy Hxy. unfold pow_long_long.
  destruct (of_integer_exact x Hx) as (mx & ex & -> & Tx).
  destruct (of_integer_exact y) as (my & ey & -> & Ty); [lia|].
  unfold Double.pow. rewrite Tx, Ty.
  destruct (Z.eqb_spec y 0) as [->|Hy0].
  - rewrite Z.pow_0_r. now apply to_long_long_of_exact_double.
  - destruct (Z.ltb_spec 0 y); [|lia]. now apply to_long_long_of_exact_double.
Qed.

Section SignedEvaluator.

Context {LD : LongDouble}.

(** X3: for a negative number a above -2^53 and an exponent b with
    0 <= b < 2^53, given as decimal text, [getResultString] works in the
    signed domain and returns the decimal text of a^b whenever
    |a^b| < 2^53. *)
Theorem X3_negative_base_exact (a b : Z) :
  - 2 ^ 53 < a < 0 -> 0 <= b < 2 ^ 53 -> Z.abs (a ^ b) < 2 ^ 53 ->
  getResultString {| number := stringify a; exponent := stringify b |}
  = Returns (stringify (a ^ b)).
Proof.
  intros Ha Hb Hab.
  assert (E53 : 2 ^ 53 < 2 ^ 63) by reflexivity.
  unfold getResultString.
  destruct (stringify_domain a b) as [-> ->].
  destruct (Z.ltb_spec a 0); [|lia]. cbn [orb].
  unfold getResult_signed, getResult_with. cbn [number exponent].
  rewrite !stoll_stringify by (unfold LLONG_MIN, LLONG_MAX; lia). cbn [bind].
  rewrite pow_long_long_exact_signed by lia. reflexivity.
Qed.

(** X4: for every [long long] number a with |a| >= 2 and every negative
    [long long] exponent b, [getResultString] returns "0": the power is
    a fraction, which the conversion of the [double] to [long long]
    discards. *)
Theorem X4_negative_exponent_gives_zero (a b : Z) :
  LLONG_MIN <= a <= LLONG_MAX -> 2 <= Z.abs a -> LLONG_MIN <= b < 0 ->
  getResultString {| number := stringify a; exponent := stringify b |}
  = Returns "0".
Proof.
  intros Ha Ha2 Hb.
  assert (E63 : 2 ^ 63 < 2 ^ 64) by reflexivity.
  assert (EM : 0 <= LLONG_MAX < 2 ^ 63) by (split; [discriminate | reflexivity]).
  assert (Em : - 2 ^ 63 <= LLONG_MIN) by reflexivity.
  unfold getResultString.
  destruct (stringify_domain a b) as [-> ->].
  destruct (Z.ltb_spec b 0); [|lia]. rewrite orb_true_r.
  unfold getResult_signed, getResult_with. cbn [number exponent].
  rewrite !stoll_stringify by lia. cbn [bind].
  unfold pow_long_long.
  destruct (of_integer_sign a) as (mx & ex & -> & Sx & Mx); [lia|].
  destruct (of_integer_sign b) as (my & ey & -> & Sy & _); [lia|].
  specialize (Mx Ha2).
  rewrite (Z.sgn_neg b) in Sy by lia. apply Z.sgn_neg_iff in Sy.
  unfold Double.pow.
  set (vx := Double.truncate mx ex) in *. set (vy := Double.truncate my ey) in *.
  destruct (Z.eqb_spec vy 0); [lia|].
  destruct (Z.ltb_spec 0 vy); [lia|].
  destruct (Z.eqb_spec vx 0); [lia|].
  assert (Hd : 2 <= Z.abs (vx ^ (- vy))).
  { rewrite Z.abs_pow. pose proof (pow_base_le (Z.abs vx) (- vy)). lia. }
  destruct (Z.ltb_spec 0 (vx ^ (- vy))).
  - destruct (of_ratio_reciprocal 1 (vx ^ (- vy))) as (m & e & -> & T); [lia | lia|].
    unfold Double.to_long_long. rewrite T. reflexivity.
  - destruct (of_ratio_reciprocal (- 1) (- vx ^ (- vy))) as (m & e & -> & T); [lia | lia|].
    unfold Double.to_long_long. rewrite T. reflexivity.
Qed.

(** X5: for the number "0" and every negative [long long] exponent,
    [getResultString] has undefined behaviour: the power is infinite in
    [double] and is converted to [long long]. *)
Theorem X5_zero_to_negative_undefined (b : Z) :
  LLONG_MIN <= b < 0 ->
  getResultString {| number := "0"; exponent := stringify b |} = Undefined.
Proof.
  intros Hb.
  assert (E63 : 2 ^ 63 < 2 ^ 64) by reflexivity.
  assert (Em : - 2 ^ 63 <= LLONG_MIN) by reflexivity.
  change "0"%string with (stringify 0).
  unfold getResultString.
  destruct (stringify_domain 0 b) as [-> ->].
  destruct (Z.ltb_spec b 0); [|lia]. rewrite orb_true_r.
  unfold getResult_signed, getResult_with. cbn [number exponent].
  assert (EM : 0 <= LLONG_MAX) by discriminate.
  rewrite (stoll_stringify 0), (stoll_stringify b) by lia. cbn [bind].
  unfold pow_long_long.
  destruct (of_integer_sign b) as (my & ey & -> & Sy & _); [lia|].
  rewrite (Z.sgn_neg b) in Sy by lia. apply Z.sgn_neg_iff in Sy.
  change (Double.of_integer 0) with (Double.Finite 0 0).
  unfold Double.pow. change (Double.truncate 0 0) with 0.
  destruct (Z.eqb_spec (Double.truncate my ey) 0); [lia|].
  destruct (Z.ltb_spec 0 (Double.truncate my ey)); [lia|].
  reflexivity.
Qed.

End SignedEvaluator.

(** ** The search on an operation with text around it *)

Local Close Scope Z_scope.

Lemma regex_search_here r s c :
  match_here r s = Some c -> regex_search r s = Some c.
Proof. intros H. destruct s; cbn [regex_search]; now rewrite H. Qed.

Lemma match_here_junk a s :
  junk_char a = true -> match_here rgxParseOperation (String a s) = None.
Proof.
  unfold junk_char. rewrite negb_true_iff, orb_false_iff. intros [Ho Hp].
  unfold match_here, rgxParseOperation, operand_pattern, Plus, Char.
  cbn [run]. now rewrite Hp, Ho.
Qed.

Lemma regex_search_junk pre s :
  Str.all junk_char pre = true ->
  regex_search rgxParseOperation (pre ++ s) = regex_search rgxParseOperation s.
Proof.
  induction pre as [|a pre IH]; cbn [Str.all append]; [reflexivity|].
  intros H. apply andb_true_iff in H as [Ha Hpre].
  cbn [regex_search]. rewrite (match_here_junk a _ Ha). now apply IH.
Qed.

Lemma star_stop p s k : stops p s -> star p s k = k s.
Proof. destruct s as [|a s]; cbn; [reflexivity|]. now intros ->. Qed.

Lemma stops_app p s t : s <> "" -> stops p s -> stops p (s ++ t).
Proof. destruct s; [now intros H; elim H | intros _ H; exact H]. Qed.

Lemma after_number_needs_caret s c k :
  Str.find "^" s = None -> run after_number s c k = None.
Proof.
  intros F. destruct (run after_number s c k) as [x|] eqn:E; [|reflexivity].
  exfalso. apply run_sound in E as (w & s' & c' & -> & M & _).
  apply find_if_none in F. rewrite all_app in F. apply andb_true_iff in F as [F _].
  unfold after_number in M. inv_matches. unfold Char in *. inv_matches.
  rewrite !all_app in F.
  apply andb_true_iff in F as [_ F]. apply andb_true_iff in F as [F _].
  cbn [Str.all] in F.
  match goal with
  | H : Ascii.eqb "^" ?a = true |- _ => rewrite H in F
  end.
  discriminate F.
Qed.

Lemma find_caret_tail a s :
  Str.find "^" (String a s) = None -> Str.find "^" s = None.
Proof.
  unfold Str.find. cbn [Str.find_if]. destruct (Ascii.eqb "^" a); [discriminate|].
  destruct (Str.find_if _ s); [discriminate | reflexivity].
Qed.

Lemma find_caret_suffix pre t :
  Str.find "^" (pre ++ t) = None -> Str.find "^" t = None.
Proof.
  induction pre as [|a pre IH]; cbn [append]; [auto|].
  intros H. apply IH. now apply find_caret_tail in H.
Qed.

(** After the number group, text without a caret cannot complete a match,
    with or without a closing parenthesis. *)
Lemma close_needs_caret s c k :
  Str.find "^" s = None ->
  run (Opt false (Char ")")) s c (fun s2 c2 => run after_number s2 c2 k) = None.
Proof.
  intros F. unfold Char. cbn [run]. rewrite (after_number_needs_caret s c k F).
  destruct s as [|a s]; [reflexivity|].
  destruct (Ascii.eqb ")" a); [|reflexivity].
  apply after_number_needs_caret. now apply find_caret_tail in F.
Qed.

Lemma operand_chars (a : ascii) :
  operand_char a = true ->
  is_space a = false /\ Ascii.eqb "(" a = false /\ Ascii.eqb ")" a = false.
Proof.
  destruct a as [[|] [|] [|] [|] [|] [|] [|] [|]]; intros H;
    try discriminate H; repeat split.
Qed.

Lemma space_chars (a : ascii) :
  is_space a = true ->
  operand_char a = false /\ Ascii.eqb "^" a = false /\ Ascii.eqb ")" a = false.
Proof.
  destruct a as [[|] [|] [|] [|] [|] [|] [|] [|]]; intros H;
    try discriminate H; repeat split.
Qed.

Lemma run_seq r1 r2 s c k :
  run (Seq r1 r2) s c k = run r1 s c (fun s1 c1 => run r2 s1 c1 k).
Proof. reflexivity. Qed.

Lemma run_open_take s c k :
  run (Opt true (Char "(")) (String "(" s) c k
  = match k s c with Some x => Some x | None => k (String "(" s) c end.
Proof. reflexivity. Qed.

Lemma run_open_skip a s c k :
  Ascii.eqb "(" a = false -> run (Opt true (Char "(")) (String a s) c k = k (String a s) c.
Proof. intros H. unfold Char. cbn [run]. now rewrite H. Qed.

(** The exponent side: an optional "(", a run of digits, and text at
    which the run ends. *)
Lemma run_exponent_group lp g rest c :
  opening lp -> Str.all is_digit g = true -> g <> "" -> stops operand_char rest ->
  run (operand_pattern 2) (lp ++ g ++ rest) c (fun _ c' => Some c')
  = Some ((2%nat, g) :: c).
Proof.
  intros Hlp Hg Hne Hrest. destruct g as [|d g]; [now elim Hne|].
  cbn [Str.all] in Hg. apply andb_true_iff in Hg as [Hd Hg].
  destruct (digit_chars d Hd) as (Od & _ & Ld & _ & _).
  assert (Hgroup : run (Seq (Group 2 (Plus operand_char)) (Opt false (Char ")")))
                     (String d (g ++ rest)) c (fun _ c' => Some c')
                   = Some ((2%nat, String d g) :: c)).
  { unfold Plus, Char. cbn [run]. rewrite Od.
    apply star_backtrack; [now apply digits_operand|].
    rewrite star_stop by exact Hrest.
    change (String d (g ++ rest)) with (String d g ++ rest).
    now rewrite between_app. }
  unfold operand_pattern. rewrite run_seq. destruct Hlp as [-> | ->]; cbn [append].
  - rewrite run_open_skip by exact Ld. exact Hgroup.
  - rewrite run_open_take. now rewrite Hgroup.
Qed.

Lemma run_spaces ws rest c k x :
  Str.all is_space ws = true -> stops is_space rest ->
  k rest c = Some x -> run (Star is_space) (ws ++ rest) c k = Some x.
Proof.
  intros Hws Hrest Hk. cbn [run]. apply star_backtrack; [exact Hws|].
  now rewrite star_stop.
Qed.

Lemma run_caret s c k : run (Char "^") (String "^" s) c k = k s c.
Proof. reflexivity. Qed.

(** From the caret on: spaces, the caret, spaces, the exponent group. *)
Lemma run_after_number ws1 ws2 lp g rest c :
  Str.all is_space ws1 = true -> Str.all is_space ws2 = true ->
  opening lp -> Str.all is_digit g = true -> g <> "" -> stops operand_char rest ->
  run after_number (ws1 ++ String "^" (ws2 ++ lp ++ g ++ rest)) c (fun _ c' => Some c')
  = Some ((2%nat, g) :: c).
Proof.
  intros H1 H2 Hlp Hg Hne Hrest. unfold after_number. rewrite run_seq.
  apply run_spaces; [exact H1 | reflexivity |].
  rewrite run_seq, run_caret, run_seq.
  apply run_spaces; [exact H2 | |].
  - destruct g as [|d g]; [now elim Hne|].
    cbn [Str.all] in Hg. apply andb_true_iff in Hg as [Hd _].
    destruct (digit_chars d Hd) as (_ & Sd & _).
    destruct Hlp as [-> | ->]; [exact Sd | reflexivity].
  - now apply run_exponent_group.
Qed.

(** The optional ")" after the number group, then the rest. *)
Lemma run_close rp ws1 ws2 lp g rest c :
  closing rp ->
  Str.all is_space ws1 = true -> Str.all is_space ws2 = true ->
  opening lp -> Str.all is_digit g = true -> g <> "" -> stops operand_char rest ->
  run (Opt false (Char ")")) (rp ++ ws1 ++ String "^" (ws2 ++ lp ++ g ++ rest)) c
      (fun s2 c2 => run after_number s2 c2 (fun _ c' => Some c'))
  = Some ((2%nat, g) :: c).
Proof.
  intros Hrp H1 H2 Hlp Hg Hne Hrest.
  pose proof (run_after_number ws1 ws2 lp g rest c H1 H2 Hlp Hg Hne Hrest) as Hrun.
  destruct Hrp as [-> | ->]; cbn [append].
  - cbn [run]. now rewrite Hrun.
  - unfold Char. cbn [run]. change (Ascii.eqb ")" ")") with true. cbv iota.
    rewrite Hrun.
    assert (E : run after_number (String ")" (ws1 ++ String "^" (ws2 ++ lp ++ g ++ rest)))
                  c (fun _ c' => Some c') = None).
    { unfold after_number, Char. cbn [run star]. reflexivity. }
    now rewrite E.
Qed.

Lemma no_caret_app s t :
  Str.find "^" s = None -> Str.find "^" t = None -> Str.find "^" (s ++ t) = None.
Proof.
  unfold Str.find. rewrite !find_if_none, all_app. intros -> ->. reflexivity.
Qed.

Lemma spaces_no_caret ws : Str.all is_space ws = true -> Str.find "^" ws = None.
Proof. apply all_find_if_none. intros a Ha. now apply space_chars in Ha. Qed.

Lemma opening_no_caret lp : opening lp -> Str.find "^" lp = None.
Proof. now intros [-> | ->]. Qed.

Lemma closing_no_caret rp : closing rp -> Str.find "^" rp = None.
Proof. now intros [-> | ->]. Qed.

Lemma closing_stops rp post :
  closing rp -> stops operand_char post -> stops operand_char (rp ++ post).
Proof. now intros [-> | ->]. Qed.

(** The match that starts at the number group: the group ends at the
    last caret of the operation, whatever carets it holds itself. *)
Lemma match_here_operation lp1 g1 rp1 ws1 ws2 lp2 g2 rp2 post :
  opening lp1 -> Str.all operand_char g1 = true -> g1 <> "" -> closing rp1 ->
  Str.all is_space ws1 = true -> Str.all is_space ws2 = true ->
  opening lp2 -> Str.all is_digit g2 = true -> g2 <> "" -> closing rp2 ->
  stops operand_char post -> Str.find "^" post = None ->
  match_here rgxParseOperation
    (lp1 ++ g1 ++ rp1 ++ ws1 ++ String "^" (ws2 ++ lp2 ++ g2 ++ rp2 ++ post))
  = Some [(2%nat, g2); (1%nat, g1)].
Proof.
  intros Hlp1 Hg1 Hne1 Hrp1 Hws1 Hws2 Hlp2 Hg2 Hne2 Hrp2 Hpost Fpost.
  pose proof (closing_stops rp2 post Hrp2 Hpost) as Hrest.
  set (rest2 := ws2 ++ lp2 ++ g2 ++ rp2 ++ post) in *.
  assert (Frest2 : Str.find "^" rest2 = None).
  { unfold rest2. repeat apply no_caret_app; auto using spaces_no_caret,
      opening_no_caret, closing_no_caret. now apply digits_find. }
  set (t := rp1 ++ ws1 ++ String "^" rest2).
  assert (Hclose : forall c,
             run (Opt false (Char ")")) t c
               (fun s2 c2 => run after_number s2 c2 (fun _ c' => Some c'))
             = Some ((2%nat, g2) :: c)).
  { intros c. now apply run_close. }
  destruct g1 as [|a g1]; [now elim Hne1|].
  cbn [Str.all] in Hg1. apply andb_true_iff in Hg1 as [Ha Hg1].
  destruct (operand_chars a Ha) as (_ & La & _).
  assert (Hgroup :
            run (Seq (Group 1 (Plus operand_char)) (Opt false (Char ")")))
              (String a (g1 ++ t)) []
              (fun s2 c2 => run after_number s2 c2 (fun _ c' => Some c'))
            = Some [(2%nat, g2); (1%nat, String a g1)]).
  { rewrite run_seq. unfold Plus. cbn [run]. rewrite Ha.
    apply star_backtrack; [exact Hg1|].
    assert (Hhere : run (Opt false (Char ")")) t
                      [(1%nat, Str.between (String a (g1 ++ t)) t)]
                      (fun s2 c2 => run after_number s2 c2 (fun _ c' => Some c'))
                    = Some [(2%nat, g2); (1%nat, String a g1)]).
    { change (String a (g1 ++ t)) with (String a g1 ++ t).
      rewrite between_app. apply Hclose. }
    destruct Hrp1 as [E | E]; [destruct ws1 as [|w ws1] |].
    - (* the caret follows at once: the group first runs over it *)
      subst rp1. unfold t in *. cbn [append] in *. cbn [star].
      change (operand_char "^") with true. cbv iota.
      rewrite star_none; [exact Hhere|].
      intros pre t' Et'. apply close_needs_caret.
      apply (find_caret_suffix pre). now rewrite <- Et'.
    - subst rp1. unfold t in *. cbn [append] in *.
      cbn [Str.all] in Hws1. apply andb_true_iff in Hws1 as [Hw _].
      rewrite star_stop; [exact Hhere|]. now apply space_chars in Hw.
    - subst rp1. unfold t in *. cbn [append] in *.
      rewrite star_stop; [exact Hhere | reflexivity]. }
  unfold match_here.
  change rgxParseOperation with (Seq (operand_pattern 1) after_number).
  rewrite run_seq. unfold operand_pattern. rewrite run_seq.
  fold t. destruct Hlp1 as [-> | ->]; cbn [append].
  - rewrite run_open_skip by exact La. exact Hgroup.
  - rewrite run_open_take. now rewrite Hgroup.
Qed.

(** The search on an operation with surrounding text. *)
Lemma regex_search_operation_text pre lp1 g1 rp1 ws1 ws2 lp2 g2 rp2 post :
  Str.all junk_char pre = true ->
  opening lp1 -> Str.all operand_char g1 = true -> g1 <> "" -> closing rp1 ->
  Str.all is_space ws1 = true -> Str.all is_space ws2 = true ->
  opening lp2 -> Str.all is_digit g2 = true -> g2 <> "" -> closing rp2 ->
  stops operand_char post -> Str.find "^" post = None ->
  regex_search rgxParseOperation
    (pre ++ lp1 ++ g1 ++ rp1 ++ ws1 ++ String "^" (ws2 ++ lp2 ++ g2 ++ rp2 ++ post))
  = Some [(2%nat, g2); (1%nat, g1)].
Proof.
  intros Hpre. intros. rewrite regex_search_junk by exact Hpre.
  apply regex_search_here. now apply match_here_operation.
Qed.

(** ** The resolver *)

Section OperationText.

Context {LD : LongDouble}.

(** The call on text whose search gives the groups [num] and [exp]. *)
Lemma getOperationResult_groups (G : Global_t) (s num exp : string) :
  regex_search rgxParseOperation s = Some [(2%nat, exp); (1%nat, num)] ->
  getOperationResult G s
  = bind_depth (sub_expression (getOperationResult G) num) (fun n =>
    bind_depth (sub_expression (getOperationResult G) exp) (fun e =>
    bind_depth (Some (getResultString {| number := snd n; exponent := snd e |}))
      (fun result =>
         Some (Returns (render G (fst n) (snd n) (fst e) (snd e) result, result))))).
Proof.
  intros H. rewrite getOperationResult_unfold at 1. unfold getOperationResult_body.
  rewrite H. reflexivity.
Qed.

(** X11: text around an operation does not change its outcome.  Let the
    number be a run of digits and carets and the exponent a run of
    digits; put in front characters with which no match can start, around
    each operand an optional "(" and an optional ")" (they need not
    pair), around the caret any white space, and behind text without a
    caret that does not go on with a digit: the call returns what it
    returns on number, caret, exponent alone. *)
Theorem X11_decoration_ignored (G : Global_t) pre lp1 g1 rp1 ws1 ws2 lp2 g2 rp2 post :
  Str.all junk_char pre = true ->
  opening lp1 -> Str.all operand_char g1 = true -> g1 <> "" -> closing rp1 ->
  Str.all is_space ws1 = true -> Str.all is_space ws2 = true ->
  opening lp2 -> Str.all is_digit g2 = true -> g2 <> "" -> closing rp2 ->
  stops operand_char post -> Str.find "^" post = None ->
  getOperationResult G
    (pre ++ lp1 ++ g1 ++ rp1 ++ ws1 ++ String "^" (ws2 ++ lp2 ++ g2 ++ rp2 ++ post))
  = getOperationResult G (g1 ++ String "^" g2).
Proof.
  intros Hpre Hlp1 Hg1 Hne1 Hrp1 Hws1 Hws2 Hlp2 Hg2 Hne2 Hrp2 Hpost Fpost.
  rewrite (getOperationResult_groups G _ g1 g2)
    by now apply regex_search_operation_text.
  rewrite (getOperationResult_groups G (g1 ++ String "^" g2) g1 g2); [reflexivity|].
  pose proof (regex_search_operation_text "" "" g1 "" "" "" "" g2 "" ""
                eq_refl (or_introl eq_refl) Hg1 Hne1 (or_introl eq_refl)
                eq_refl eq_refl (or_introl eq_refl) Hg2 Hne2 (or_introl eq_refl)
                I eq_refl) as H.
  cbn [append] in H. now rewrite append_nil_r in H.
Qed.

(** X12: a chain of powers groups to the left.  When the text is w, a
    caret and a run of digits d, where w consists of digits and carets and
    holds a caret, the call first resolves w, then raises its result to d,
    and renders the equation of w in parentheses; a failure of w is the
    failure of the whole. *)
Theorem X12_chain_groups_left (G : Global_t) (w d : string) :
  Str.all operand_char w = true -> Str.find "^" w <> None ->
  Str.all is_digit d = true -> d <> "" ->
  getOperationResult G (w ++ String "^" d)
  = bind_depth (getOperationResult G w) (fun n =>
    bind_depth (Some (getResultString {| number := snd n; exponent := d |}))
      (fun result => Some (Returns (render G (fst n) (snd n) "" d result, result)))).
Proof.
  intros Hw Fw Hd Hne.
  assert (Hwne : w <> "") by (intros ->; now apply Fw).
  pose proof (regex_search_operation_text "" "" w "" "" "" "" d "" ""
                eq_refl (or_introl eq_refl) Hw Hwne (or_introl eq_refl)
                eq_refl eq_refl (or_introl eq_refl) Hd Hne (or_introl eq_refl)
                I eq_refl) as H.
  cbn [append] in H. rewrite append_nil_r in H.
  rewrite (getOperationResult_groups G _ w d H).
  unfold sub_expression. rewrite (digits_find "^" d eq_refl Hd).
  destruct (Str.find "^" w) as [i|]; [|now elim Fw].
  destruct (getOperationResult G w) as [[n|e|]|]; reflexivity.
Qed.

(** X13: characters in front with which no match can start (anything
    but digits, "^" and "("; a minus sign, for one) are ignored: when the
    pattern matches in s, the call on the longer text returns what it
    returns on s. *)
Theorem X13_leading_junk_ignored (G : Global_t) (pre s : string) :
  Str.all junk_char pre = true -> regex_search rgxParseOperation s <> None ->
  getOperationResult G (pre ++ s) = getOperationResult G s.
Proof.
  intros Hpre Hs. rewrite (getOperationResult_unfold G (pre ++ s)).
  rewrite (getOperationResult_unfold G s). unfold getOperationResult_body.
  rewrite (regex_search_junk pre s Hpre).
  destruct (regex_search rgxParseOperation s) as [c|] eqn:E; [|now elim Hs].
  destruct (regex_search_operation s c E) as (num & exp & -> & _).
  reflexivity.
Qed.

End OperationText.

Local Open Scope Z_scope.

Section ResolverResults.

Context {LD : LongDouble}.

Lemma getResultString_digits_value (a b res : string) :
  Str.all is_digit a = true -> Str.all is_digit b = true ->
  getResultString {| number := a; exponent := b |} = Returns res ->
  exists n, 0 <= n <= ULLONG_MAX /\ res = stringify n.
Proof.
  intros Ha Hb. rewrite (getResultString_digits a b Ha Hb).
  pose proof (getResult_unsigned_outcome {| number := a; exponent := b |}) as H.
  destruct (getResult_unsigned _) as [v|e|]; cbn [bind]; try discriminate.
  intros [= <-]. exists v. split; [unfold ULLONG_MAX; lia | reflexivity].
Qed.

(** X8: the result text of every call that returns is the canonical
    decimal text of an unsigned 64-bit value, and [stoull] reads that
    value back from it. *)
Theorem X8_result_round_trip (G : Global_t) (s eq res : string) :
  getOperationResult G s = Some (Returns (eq, res)) ->
  exists n, 0 <= n <= ULLONG_MAX /\ res = stringify n /\ stoull res = Returns n.
Proof.
  rewrite getOperationResult_unfold. unfold getOperationResult_body.
  destruct (regex_search rgxParseOperation s) as [c|] eqn:E; [|discriminate].
  destruct (regex_search_operation s c E)
    as (num & exp & -> & Hn & Hnc & He & Hec & Hlen).
  cbn [sub_match Nat.eqb].
  destruct (sub_expression (getOperationResult G) num) as [on|] eqn:En; [|discriminate].
  pose proof (sub_expression_resolved _ num (String.length s) on
                (getOperationResult_resolved G num) Hnc ltac:(lia) En) as Rn.
  destruct on as [[neq nv]|e|]; cbn [bind_depth fst snd]; try discriminate.
  destruct (sub_expression (getOperationResult G) exp) as [oe|] eqn:Ee; [|discriminate].
  pose proof (sub_expression_resolved _ exp (String.length s) oe
                (getOperationResult_resolved G exp) Hec ltac:(lia) Ee) as Re.
  destruct oe as [[eeq ev]|e|]; cbn [bind_depth fst snd]; try discriminate.
  destruct (getResultString _) as [r|e|] eqn:Er; cbn [bind_depth]; try discriminate.
  intros [= _ <-].
  destruct (getResultString_digits_value nv ev r Rn Re Er) as (n & Hr & ->).
  exists n. repeat split; try lia. now apply stoull_stringify.
Qed.

Lemma sub_expression_result_of self1 self2 (w : string) :
  (forall t, result_of (self1 t) = result_of (self2 t)) ->
  result_of (sub_expression self1 w) = result_of (sub_expression self2 w).
Proof.
  intros H. unfold sub_expression. destruct (Str.find "^" w); [apply H | reflexivity].
Qed.

Lemma body_result_of self1 self2 (G1 G2 : Global_t) (s : string) :
  (forall t, result_of (self1 t) = result_of (self2 t)) ->
  result_of (getOperationResult_body self1 G1 s)
  = result_of (getOperationResult_body self2 G2 s).
Proof.
  intros H. unfold getOperationResult_body.
  destruct (regex_search rgxParseOperation s) as [c|] eqn:E; [|reflexivity].
  destruct (regex_search_operation s c E) as (num & exp & -> & _).
  cbn [sub_match Nat.eqb].
  pose proof (sub_expression_result_of self1 self2 num H) as Hn.
  pose proof (sub_expression_result_of self1 self2 exp H) as He.
  destruct (sub_expression self1 num) as [[n1|e1|]|],
           (sub_expression self2 num) as [[n2|e2|]|];
    cbn in Hn; try discriminate Hn; cbn [bind_depth]; try exact Hn.
  injection Hn as Hn. rewrite Hn.
  destruct (sub_expression self1 exp) as [[x1|e1|]|],
           (sub_expression self2 exp) as [[x2|e2|]|];
    cbn in He; try discriminate He; cbn [bind_depth]; try exact He.
  injection He as He. rewrite He.
  destruct (getResultString _) as [r|e|]; reflexivity.
Qed.

Lemma depth_result_of (G1 G2 : Global_t) (d : nat) : forall s,
  result_of (getOperationResult_depth d G1 s)
  = result_of (getOperationResult_depth d G2 s).
Proof.
  induction d as [|d IH]; intros s; cbn [getOperationResult_depth]; [reflexivity|].
  apply body_result_of. exact IH.
Qed.

(** X9: quiet mode and the palette only affect the equation text: the
    result text of a call, the exception it throws, or its being
    undefined, are the same under every [Global]. *)
Theorem X9_presentation_independent (G1 G2 : Global_t) (s : string) :
  result_of (getOperationResult G1 s) = result_of (getOperationResult G2 s).
Proof. apply depth_result_of. Qed.

(** X10: the two operands of a match are together shorter than the
    input, so the recursion ends: the call finishes on every input, and
    any depth bound above the length of the input gives the same
    outcome. *)
Theorem X10_operands_shorter (G : Global_t) (s : string) :
  (forall c, regex_search rgxParseOperation s = Some c ->
     exists num exp,
       sub_match c 1 = Some num /\ sub_match c 2 = Some exp
       /\ (String.length num + String.length exp < String.length s)%nat)
  /\ (exists o, getOperationResult G s = Some o)
  /\ (forall d, (String.length s < d)%nat ->
        getOperationResult_depth d G s = getOperationResult G s).
Proof.
  repeat split.
  - intros c H. apply regex_search_operation in H as (num & exp & -> & H).
    exists num, exp. repeat split; apply H.
  - apply getOperationResult_total.
  - intros d Hd. apply depth_irrelevant; [exact Hd | lia].
Qed.

Lemma getOperationResult_flat (G : Global_t) (da db : string) :
  Str.all is_digit da = true -> da <> "" ->
  Str.all is_digit db = true -> db <> "" ->
  getOperationResult G (da ++ String "^" db)
  = bind_depth (Some (r <- getResult_unsigned {| number := da; exponent := db |} ;;
                      Returns (stringify r)))
      (fun result => Some (Returns (render G "" da "" db result, result))).
Proof.
  intros Da Na Db Nb.
  rewrite (getOperationResult_groups G _ da db) by now apply regex_search_digits.
  unfold sub_expression.
  rewrite (digits_find "^" _ eq_refl Da), (digits_find "^" _ eq_refl Db).
  cbn [bind_depth fst snd]. now rewrite (getResultString_digits _ _ Da Db).
Qed.

(** X6: for non-negative integers a, b below 2^53 with a^b >= 2^63, the
    call on "a^b" has undefined behaviour: the [double] power does not
    fit the [long long] it is converted to (there is no wrap-around). *)
Theorem X6_power_from_2_63_undefined (G : Global_t) (a b : Z) :
  0 <= a < 2 ^ 53 -> 0 <= b < 2 ^ 53 -> 2 ^ 63 <= a ^ b ->
  getOperationResult G (stringify a ++ "^" ++ stringify b) = Some Undefined.
Proof.
  intros Ha Hb Hab.
  assert (E53 : 2 ^ 53 < 2 ^ 63) by reflexivity.
  assert (E63 : 2 ^ 63 < 2 ^ 64) by reflexivity.
  destruct (stringify_digits a) as [Da Na]; [lia|].
  destruct (stringify_digits b) as [Db Nb]; [lia|].
  cbn [append]. rewrite (getOperationResult_flat G _ _ Da Na Db Nb).
  unfold getResult_unsigned, getResult_with. cbn [number exponent].
  rewrite !stoull_stringify by (unfold ULLONG_MAX; lia). cbn [bind].
  rewrite !to_long_long_small by lia.
  unfold pow_long_long.
  destruct (of_integer_exact a) as (mx & ex & -> & Tx); [lia|].
  destruct (of_integer_exact b) as (my & ey & -> & Ty); [lia|].
  unfold Double.pow. rewrite Tx, Ty.
  destruct (Z.eqb_spec b 0) as [->|Hb0].
  { rewrite Z.pow_0_r in Hab. assert (1 < 2 ^ 63) by reflexivity. lia. }
  destruct (Z.ltb_spec 0 b); [|lia].
  now rewrite (to_long_long_of_large_double _ Hab).
Qed.

End ResolverResults.

Lemma to_long_long_high (a : Z) :
  2 ^ 63 <= a <= ULLONG_MAX -> to_long_long a = a - 2 ^ 64.
Proof.
  unfold ULLONG_MAX. intros Ha. unfold to_long_long.
  rewrite Z.mod_small by lia.
  destruct (Z.ltb_spec a (2 ^ 63)); [lia | reflexivity].
Qed.

Lemma pow_congruent (a b : Z) :
  0 <= b -> ((a - 2 ^ 64) ^ b) mod 2 ^ 64 = (a ^ b) mod 2 ^ 64.
Proof.
  intros Hb. rewrite (Zpower_mod (a - 2 ^ 64)) by reflexivity.
  rewrite (Zpower_mod a) by reflexivity.
  replace (a - 2 ^ 64) with (a + (- 1) * 2 ^ 64) by lia.
  now rewrite Z.mod_add by discriminate.
Qed.

Section TopRange.
Context {LD : LongDouble}.

(** X7: a number a within 2^53 of 2^64 is read as the negative
    [long long] a - 2^64; for 0 <= b < 2^53 with |(a - 2^64)^b| < 2^53
    the result text of "a^b" is the decimal text of a^b modulo 2^64. *)
Theorem X7_top_range_wraps (G : Global_t) (a b : Z) :
  2 ^ 64 - 2 ^ 53 < a <= ULLONG_MAX -> 0 <= b < 2 ^ 53 ->
  Z.abs ((a - 2 ^ 64) ^ b) < 2 ^ 53 ->
  getOperationResult G (stringify a ++ "^" ++ stringify b)
  = Some (Returns (render G "" (stringify a) "" (stringify b)
                     (stringify ((a ^ b) mod 2 ^ 64)),
                   stringify ((a ^ b) mod 2 ^ 64))).
Proof.
  intros Ha Hb Hab.
  assert (E53 : 2 ^ 53 < 2 ^ 63) by reflexivity.
  assert (E63 : 2 * 2 ^ 63 = 2 ^ 64) by reflexivity.
  assert (EU : ULLONG_MAX = 2 ^ 64 - 1) by reflexivity.
  destruct (stringify_digits a) as [Da Na]; [lia|].
  destruct (stringify_digits b) as [Db Nb]; [lia|].
  cbn [append]. rewrite (getOperationResult_flat G _ _ Da Na Db Nb).
  unfold getResult_unsigned, getResult_with. cbn [number exponent].
  rewrite !stoull_stringify by lia. cbn [bind].
  rewrite (to_long_long_high a) by lia. rewrite (to_long_long_small b) by lia.
  rewrite pow_long_long_exact_signed by lia. cbn [bind bind_depth].
  unfold to_unsigned_long_long. now rewrite pow_congruent by lia.
Qed.

End TopRange.

(** ** [Pow]'s tests and [main] *)

Local Close Scope Z_scope.

Lemma find_contains (c : ascii) (s : string) :
  Str.find c s <> None <-> contains c s.
Proof.
  unfold Str.find, contains. induction s as [|a s IH]; cbn [Str.find_if].
  - split; [intros H; now elim H | intros (pre & post & H)].
    destruct pre; discriminate H.
  - destruct (Ascii.eqb_spec c a) as [->|Hca].
    + split; [intros _; exists "", s; reflexivity | discriminate].
    + split.
      * intros H. destruct (Str.find_if (Ascii.eqb c) s); [|now elim H].
        destruct IH as [IH _]. destruct IH as (pre & post & ->); [discriminate|].
        exists (String a pre), post. reflexivity.
      * intros (pre & post & H). destruct pre as [|b pre]; cbn [append] in H.
        -- injection H as -> _. now elim Hca.
        -- injection H as _ ->. destruct IH as [_ IH].
           destruct (Str.find_if (Ascii.eqb c) (pre ++ String c post));
             [discriminate|]. elim IH; eauto.
Qed.

(** X1: [hasFloatingPoint] holds exactly when the number or the
    exponent has a '.' somewhere. *)
Theorem X1_hasFloatingPoint_iff_point (p : Pow) :
  hasFloatingPoint p = true <-> contains "." (number p) \/ contains "." (exponent p).
Proof. rewrite hasFloatingPoint_spec, !find_contains. tauto. Qed.

(** X2: [hasNegative] holds exactly when the number or the exponent
    begins with '-'; a '-' further on does not count. *)
Theorem X2_hasNegative_iff_leading_minus (p : Pow) :
  hasNegative p = true
  <-> (exists s, number p = String "-" s) \/ (exists s, exponent p = String "-" s).
Proof.
  unfold hasNegative. cbv zeta. rewrite orb_true_iff, !leading_minus. tauto.
Qed.

Section MainFacts.

Context {LD : LongDouble}.

Lemma resolve_operations_success (G : Global_t) (ops : list string) :
  forall printed out code,
  resolve_operations G ops printed = Some (Returns (out, None, code))
  <-> code = 0%Z /\ exists eqs, out = (printed ++ eqs)%list /\ Forall2 (resolves_to G) ops eqs.
Proof.
  induction ops as [|arg ops IH]; intros printed out code; cbn [resolve_operations].
  - split.
    + intros [= <- <-]. split; [reflexivity|]. exists []. now rewrite List.app_nil_r.
    + intros (-> & eqs & -> & F). inversion F. now rewrite List.app_nil_r.
  - destruct (getOperationResult G arg) as [[[eq res]|ex|]|] eqn:E.
    + rewrite IH. split.
      * intros (-> & eqs & -> & F). split; [reflexivity|].
        exists (eq :: eqs). rewrite <- List.app_assoc. split; [reflexivity|].
        constructor; [now exists res | exact F].
      * intros (-> & eqs & -> & F). split; [reflexivity|].
        inversion F as [|? eq' ? eqs' (res' & R) F']; subst.
        rewrite E in R. injection R as <- <-.
        exists eqs'. rewrite <- List.app_assoc. split; [reflexivity | exact F'].
    + split; [discriminate|]. intros (_ & eqs & _ & F).
      inversion F as [|? eq' ? eqs' (res' & R) F']; subst. rewrite E in R. discriminate R.
    + split; [discriminate|]. intros (_ & eqs & _ & F).
      inversion F as [|? eq' ? eqs' (res' & R) F']; subst. rewrite E in R. discriminate R.
    + split; [discriminate|]. intros (_ & eqs & _ & F).
      inversion F as [|? eq' ? eqs' (res' & R) F']; subst. rewrite E in R. discriminate R.
Qed.

(** X14: the loop of [main] ends without an error exactly when every
    operation resolves; it then returns 0 and has printed the equation
    texts of the operations, one for each, in their order. *)
Theorem X14_batch_success (G : Global_t) (ops out : list string) (code : Z) :
  resolve_operations G ops [] = Some (Returns (out, None, code))
  <-> code = 0%Z /\ Forall2 (resolves_to G) ops out.
Proof.
  rewrite resolve_operations_success. cbn [List.app]. split.
  - intros (-> & eqs & -> & F). split; [reflexivity | exact F].
  - intros (-> & F). split; [reflexivity|]. exists out. split; [reflexivity | exact F].
Qed.

Lemma resolve_operations_failure (G : Global_t) (done : list string) :
  forall printed eqs bad rest ex,
  Forall2 (resolves_to G) done eqs ->
  getOperationResult G bad = Some (Throws ex) ->
  resolve_operations G (done ++ bad :: rest) printed
  = Some (Returns ((printed ++ eqs)%list, Some ex, 1%Z)).
Proof.
  induction done as [|arg done IH]; intros printed eqs bad rest ex F Hbad.
  - inversion F. cbn [List.app resolve_operations]. rewrite Hbad. now rewrite List.app_nil_r.
  - inversion F as [|? eq ? eqs' (res & R) F']; subst.
    cbn [List.app resolve_operations]. rewrite R.
    rewrite (IH _ eqs' bad rest ex F' Hbad). now rewrite <- List.app_assoc.
Qed.

(** X15: the loop of [main] stops at the first operation that throws:
    the equation texts of the operations before it have been printed, the
    exception is reported, the value is 1, and the operations after it
    are not looked at. *)
Theorem X15_fail_fast (G : Global_t) (done eqs : list string) (bad : string)
  (rest : list string) (ex : exception) :
  Forall2 (resolves_to G) done eqs ->
  getOperationResult G bad = Some (Throws ex) ->
  resolve_operations G (done ++ bad :: rest) [] = Some (Returns (eqs, Some ex, 1%Z)).
Proof. intros F H. now rewrite (resolve_operations_failure G done [] eqs bad rest ex F H). Qed.

Lemma quiet_plain_equation (G : Global_t) (s eq res : string) :
  quiet G = true -> active (colors G) = false ->
  getOperationResult G s = Some (Returns (eq, res)) ->
  eq = res /\ Str.all is_digit eq = true /\ eq <> "".
Proof.
  intros Hq Ha H.
  pose proof (getOperationResult_resolved G s _ H) as [Hd Hne].
  assert (E : eq = res); [|subst; auto].
  revert H. rewrite getOperationResult_unfold. unfold getOperationResult_body.
  destruct (regex_search rgxParseOperation s) as [c|]; [|discriminate].
  destruct (sub_match c 1), (sub_match c 2); try discriminate.
  destruct (sub_expression _ _) as [[n|e|]|]; cbn [bind_depth]; try discriminate.
  destruct (sub_expression _ _) as [[n'|e|]|]; cbn [bind_depth]; try discriminate.
  destruct (getResultString _) as [r|e|]; cbn [bind_depth]; try discriminate.
  intros [= <- <-]. unfold render, set_color, reset_color. rewrite Hq, Ha.
  cbn [append]. apply append_nil_r.
Qed.

Lemma resolve_operations_quiet_plain (G : Global_t) (ops : list string) :
  quiet G = true -> active (colors G) = false ->
  forall printed out err code,
  Forall (fun line => Str.all is_digit line = true /\ line <> "") printed ->
  resolve_operations G ops printed = Some (Returns (out, err, code)) ->
  Forall (fun line => Str.all is_digit line = true /\ line <> "") out.
Proof.
  intros Hq Ha. induction ops as [|arg ops IH]; intros printed out err code Hp;
    cbn [resolve_operations].
  - now intros [= <- _ _].
  - destruct (getOperationResult G arg) as [[[eq res]|ex|]|] eqn:E; try discriminate.
    + apply IH. apply Forall_app. split; [exact Hp|].
      constructor; [|constructor]. now apply (quiet_plain_equation G arg eq res).
    + now intros [= <- _ _].
Qed.

(** X16: with the options quiet and no-color (and neither help nor
    version), every line [main] prints is a non-empty run of digits. *)
Theorem X16_quiet_plain_output (ver name : string) (pal : palette) (args : arguments)
  (out : list string) (err : option exception) (code : Z) :
  quiet_option args = true -> no_color_option args = true ->
  help_option args = false -> version_option args = false ->
  main ver name pal args = Some (Returns (out, err, code)) ->
  Forall (fun line => Str.all is_digit line = true /\ line <> "") out.
Proof.
  intros Hq Hn Hh Hv. unfold main. rewrite Hh, Hv, Hq, Hn.
  now apply resolve_operations_quiet_plain.
Qed.

End MainFacts.

(** ** The properties at concrete inputs *)

Local Open Scope Z_scope.

(** X3 at a = -2, b = 3. *)
Lemma X3_witness :
  @getResultString no_long_double {| number := "-2"; exponent := "3" |} = Returns "-8".
Proof.
  refine (@X3_negative_base_exact no_long_double (- 2) 3 _ _ _).
  - split; reflexivity.
  - split; [discriminate | reflexivity].
  - reflexivity.
Defined.

(** X4 at a = 2, b = -1. *)
Lemma X4_witness :
  @getResultString no_long_double {| number := "2"; exponent := "-1" |} = Returns "0".
Proof.
  refine (@X4_negative_exponent_gives_zero no_long_double 2 (- 1) _ _ _).
  - split; discriminate.
  - discriminate.
  - split; [discriminate | reflexivity].
Defined.

(** X5 at b = -1. *)
Lemma X5_witness :
  @getResultString no_long_double {| number := "0"; exponent := "-1" |} = Undefined.
Proof.
  refine (@X5_zero_to_negative_undefined no_long_double (- 1) _).
  split; [discriminate | reflexivity].
Defined.

(** X6 at a = 2, b = 63. *)
Lemma X6_witness :
  @getOperationResult no_long_double plain "2^63" = Some Undefined.
Proof.
  refine (@X6_power_from_2_63_undefined no_long_double plain 2 63 _ _ _).
  - split; [discriminate | reflexivity].
  - split; [discriminate | reflexivity].
  - discriminate.
Defined.

(** X7 at a = 2^64 - 2, b = 2. *)
Lemma X7_witness :
  @getOperationResult no_long_double plain "18446744073709551614^2"
  = Some (Returns ("18446744073709551614 ^ 2 = 4", "4")).
Proof.
  refine (@X7_top_range_wraps no_long_double plain 18446744073709551614 2 _ _ _).
  - split; [reflexivity | discriminate].
  - split; [discriminate | reflexivity].
  - reflexivity.
Defined.

(** X8 at the input "2^3^2". *)
Lemma X8_witness :
  exists n, 0 <= n <= ULLONG_MAX /\ "64"%string = stringify n
            /\ stoull "64" = Returns n.
Proof.
  refine (@X8_result_round_trip no_long_double plain "2^3^2"
            "(2 ^ 3 = 8) ^ 2 = 64" "64" _).
  vm_compute. reflexivity.
Defined.

Local Close Scope Z_scope.

(** X11 at "abc(2^3) ^  (4)def". *)
Lemma X11_witness :
  @getOperationResult no_long_double plain "abc(2^3) ^  (4)def"
  = @getOperationResult no_long_double plain "2^3^4".
Proof.
  refine (@X11_decoration_ignored no_long_double plain
            "abc" "(" "2^3" ")" " " "  " "(" "4" ")" "def"
            _ _ _ _ _ _ _ _ _ _ _ _ _);
    try reflexivity; try discriminate;
    try (right; reflexivity).
Defined.

(** X12 at w = "2^3", d = "2". *)
Lemma X12_witness :
  @getOperationResult no_long_double plain "2^3^2"
  = Some (Returns ("(2 ^ 3 = 8) ^ 2 = 64", "64")).
Proof.
  refine (eq_trans (@X12_chain_groups_left no_long_double plain "2^3" "2" _ _ _ _) _);
    try reflexivity; try discriminate.
Defined.

(** X13 at the sign in front of "2^3". *)
Lemma X13_witness :
  @getOperationResult no_long_double plain "-2^3"
  = @getOperationResult no_long_double plain "2^3".
Proof.
  refine (@X13_leading_junk_ignored no_long_double plain "-" "2^3" _ _).
  - reflexivity.
  - vm_compute. discriminate.
Defined.

(** X15 at the operations "2^3", "abc", "4^2". *)
Lemma X15_witness :
  @resolve_operations no_long_double plain ["2^3"; "abc"; "4^2"] []
  = Some (Returns (["2 ^ 3 = 8"], Some (unrecognized "abc"), 1%Z)).
Proof.
  refine (@X15_fail_fast no_long_double plain ["2^3"] ["2 ^ 3 = 8"] "abc" ["4^2"]
            (unrecognized "abc") _ _).
  - constructor; [|constructor]. exists "8". vm_compute. reflexivity.
  - vm_compute. reflexivity.
Defined.

(** X16 at the operations "2^3", "4^2". *)
Lemma X16_witness :
  Forall (fun line => Str.all is_digit line = true /\ line <> "") ["8"; "16"].
Proof.
  refine (@X16_quiet_plain_output no_long_double "1.0" "pow"
            {| active := true; sequence := fun _ => "<"; reset := ">" |}
            {| quiet_option := true; no_color_option := true;
               help_option := false; version_option := false;
               operations := ["2^3"; "4^2"] |}
            ["8"; "16"] None 0%Z _ _ _ _ _);
    reflexivity.
Defined.

(** ** Digits in front of a stray character *)

Lemma star_none_run p u v k :
  Str.all p u = true -> stops p v ->
  (forall pre t, u = pre ++ t -> k (t ++ v) = None) ->
  star p (u ++ v) k = None.
Proof.
  intros Hu Hv. induction u as [|a u IH]; intros Hk; cbn [append].
  - rewrite star_stop by exact Hv. apply (Hk "" ""). reflexivity.
  - cbn [Str.all] in Hu. apply andb_true_iff in Hu as [Ha Hu].
    cbn [star]. rewrite Ha. rewrite IH.
    + apply (Hk "" (String a u)). reflexivity.
    + exact Hu.
    + intros pre t ->. apply (Hk (String a pre) t). reflexivity.
Qed.

Lemma digit_blocker (a : ascii) : is_digit a = true -> blocker_char a = true.
Proof.
  destruct a as [[|] [|] [|] [|] [|] [|] [|] [|]]; intros H;
    try discriminate H; reflexivity.
Qed.

Lemma run_close_blocked a s c k :
  blocker_char a = true ->
  run (Opt false (Char ")")) (String a s) c (fun s2 c2 => run after_number s2 c2 k)
  = None.
Proof.
  unfold blocker_char. rewrite negb_true_iff, !orb_false_iff. intros [[Hs Hc] Hp].
  unfold after_number, Char. cbn [run star]. now rewrite Hs, Hc, Hp.
Qed.

(** No match starts in a run of digits that a blocking character ends. *)
Lemma match_here_digits_blocked (A : string) (x : ascii) (rest : string) :
  Str.all is_digit A = true -> A <> "" ->
  operand_char x = false -> blocker_char x = true ->
  match_here rgxParseOperation (A ++ String x rest) = None.
Proof.
  intros HA Hne Hx Bx. destruct A as [|d A]; [now elim Hne|].
  cbn [Str.all] in HA. apply andb_true_iff in HA as [Hd HA].
  destruct (digit_chars d Hd) as (Od & _ & Ld & _ & _).
  unfold match_here.
  change rgxParseOperation with (Seq (operand_pattern 1) after_number).
  rewrite run_seq. unfold operand_pattern. rewrite run_seq. cbn [append].
  rewrite run_open_skip by exact Ld.
  rewrite run_seq. unfold Plus. cbn [run]. rewrite Od.
  apply star_none_run; [now apply digits_operand | exact Hx |].
  intros pre t E. pose proof (digits_suffix A pre t HA E) as Ht.
  destruct t as [|b t]; cbn [append].
  - now apply run_close_blocked.
  - apply run_close_blocked. now apply digit_blocker.
Qed.

Lemma regex_search_digits_blocked (A : string) (x : ascii) (rest : string) :
  Str.all is_digit A = true ->
  junk_char x = true -> blocker_char x = true ->
  regex_search rgxParseOperation (A ++ String x rest)
  = regex_search rgxParseOperation rest.
Proof.
  intros HA Jx Bx.
  assert (Hx : operand_char x = false).
  { unfold junk_char in Jx. rewrite negb_true_iff, orb_false_iff in Jx. apply Jx. }
  induction A as [|d A IH]; cbn [append].
  - cbn [regex_search]. now rewrite (match_here_junk x rest Jx).
  - pose proof HA as HA'. cbn [Str.all] in HA'. apply andb_true_iff in HA' as [_ HA'].
    cbn [regex_search].
    change (String d (A ++ String x rest)) with (String d A ++ String x rest).
    rewrite (match_here_digits_blocked (String d A) x rest HA ltac:(discriminate) Hx Bx).
    now apply IH.
Qed.

Section StrayCharacter.
Context {LD : LongDouble}.

(** X17: digits that are followed by a stray character (one that is
    neither a digit, a caret, a parenthesis nor white space; a '.' or a
    '-', for one) are dropped together with it: when the pattern matches
    in the rest, the call returns what it returns on the rest. *)
Theorem X17_number_before_stray_character (G : Global_t) (A : string) (x : ascii)
  (rest : string) :
  Str.all is_digit A = true ->
  junk_char x = true -> blocker_char x = true ->
  regex_search rgxParseOperation rest <> None ->
  getOperationResult G (A ++ String x rest) = getOperationResult G rest.
Proof.
  intros HA Jx Bx Hs. rewrite (getOperationResult_unfold G (A ++ String x rest)).
  rewrite (getOperationResult_unfold G rest). unfold getOperationResult_body.
  rewrite (regex_search_digits_blocked A x rest HA Jx Bx).
  destruct (regex_search rgxParseOperation rest) as [c|] eqn:E; [|now elim Hs].
  destruct (regex_search_operation rest c E) as (num & exp & -> & _).
  reflexivity.
Qed.

End StrayCharacter.

(** X17 at the text "2.0^3". *)
Lemma X17_witness :
  @getOperationResult no_long_double plain "2.0^3"
  = @getOperationResult no_long_double plain "0^3".
Proof.
  refine (@X17_number_before_stray_character no_long_double plain "2" "." "0^3" _ _ _ _).
  - reflexivity.
  - reflexivity.
  - reflexivity.
  - vm_compute. discriminate.
Defined.
